(** * Known-answer self-tests of the fips140 module (crypto/fips140-selftests.c)

    A shallow embedding of the self-test engine: the result comparator with
    its error-injection hook, the implementation validator, the seven test
    functions, the registry [fips140_selftests] and the orchestrator
    [fips140_run_selftests].

    The crypto API (allocation, keys, encryption, digests, DRBG) and the
    allocator are external to the file: they are a record of operations over
    an abstract world [W].  Every call into them, and every printk, is also
    appended to a trace, so that statements about the order of operations
    are statements about that trace. *)

From Stdlib Require Import ZArith List String Bool Lia.
Import ListNotations.
Open Scope string_scope.
Open Scope list_scope.
Open Scope Z_scope.

(** ** Bytes, buffers and the C library *)

Definition u8 := Z.
Definition bytes := list u8.

(** errno values (include/uapi/asm-generic/errno*.h). *)
Definition ENOMEM : Z := 12.
Definition EINVAL : Z := 22.
Definition EBADMSG : Z := 74.

(** Maximum IV size (in bytes) among any algorithm tested here. *)
Definition MAX_IV_SIZE : Z := 16.

(** [size_t] is 64 bits wide, [int] 32 bits: subtraction of sizes wraps, and
    storing a size in an [int] keeps its low 32 bits, read as signed. *)
Definition size_sub (a b : Z) : Z := (a - b) mod 2 ^ 64.
Definition to_int (x : Z) : Z := (x + 2 ^ 31) mod 2 ^ 32 - 2 ^ 31.

(** Conversion of an argument to an [unsigned int] parameter: the key
    lengths, data lengths, tag size and output length that the crypto API
    takes are [unsigned int], and a [size_t] or [int] argument keeps its low
    32 bits. *)
Definition to_uint (x : Z) : Z := x mod 2 ^ 32.

(** [memcmp(s1, s2, n)]: the difference of the first pair of bytes that
    differ among the first [n], 0 when there is none.  The buffers are
    expected to hold [n] bytes; where one is shorter the comparison stops
    with a nonzero result. *)
Fixpoint memcmp (s1 s2 : bytes) (n : nat) {struct n} : Z :=
  match n with
  | O => 0
  | S n' =>
      match s1, s2 with
      | a :: s1', b :: s2' => if a =? b then memcmp s1' s2' n' else a - b
      | [], [] => 0
      | [], _ :: _ => -1
      | _ :: _, [] => 1
      end
  end.

(** [memcpy(dst, src, n)]: the first [n] bytes of [dst] are replaced. *)
Definition memcpy (dst src : bytes) (n : Z) : bytes :=
  firstn (Z.to_nat n) src ++ skipn (Z.to_nat n) dst.

(** [strcmp]: only its sign is defined by the C standard. *)
Definition strcmp (a b : string) : Z :=
  match String.compare a b with
  | Eq => 0
  | Lt => -1
  | Gt => 1
  end.

(** [result[0] ^= 0xff]. *)
Definition corrupt_first_byte (result : bytes) : bytes :=
  match result with
  | [] => []
  | b :: rest => Z.lxor b 0xff :: rest
  end.

(** An uninitialised local array of [n] bytes.  Its contents, which C leaves
    indeterminate, are taken to be zeros. *)
Definition local_array (n : Z) : bytes := repeat 0 (Z.to_nat n).

(** ** Test vectors *)

(** Test vector for a block cipher algorithm *)
Record blockcipher_testvec := {
  bc_key : bytes;
  bc_key_size : Z;
  bc_plaintext : bytes;
  bc_ciphertext : bytes;
  block_size : Z
}.

(** Test vector for an AEAD algorithm *)
Record aead_testvec := {
  aead_key : bytes;
  aead_key_size : Z;
  aead_iv : bytes;
  aead_iv_size : Z;
  assoc : bytes;
  assoc_size : Z;
  aead_plaintext : bytes;
  plaintext_size : Z;
  aead_ciphertext : bytes;
  ciphertext_size : Z
}.

(** Test vector for a length-preserving encryption algorithm *)
Record skcipher_testvec := {
  sk_key : bytes;
  sk_key_size : Z;
  sk_iv : bytes;
  sk_iv_size : Z;
  sk_plaintext : bytes;
  sk_ciphertext : bytes;
  sk_message_size : Z
}.

(** Test vector for a hash algorithm.  [hash_key] is the only pointer of a
    vector that the code tests against NULL. *)
Record hash_testvec := {
  hash_key : option bytes;
  hash_key_size : Z;
  message : bytes;
  message_size : Z;
  digest : bytes;
  digest_size : Z
}.

(** Test vector for a DRBG algorithm *)
Record drbg_testvec := {
  entropy : bytes;
  entropy_size : Z;
  pers : bytes;
  pers_size : Z;
  entpr_a : bytes;
  entpr_b : bytes;
  entpr_size : Z;
  add_a : bytes;
  add_b : bytes;
  add_size : Z;
  output : bytes;
  out_size : Z
}.

(** The test functions a [struct fips_test] can point to. *)
Inductive test_func :=
| Fips_test_blockcipher
| Fips_test_aes
| Fips_test_skcipher
| Fips_test_aead
| Fips_test_hash
| Fips_test_sha256_library
| Fips_test_drbg.

(** A struct which specifies an algorithm name (using crypto API syntax), a
    test function for that algorithm, and a test vector used by that test
    function.  The members of the anonymous union are kept side by side:
    every test function reads the member of its own family only. *)
Record fips_test := {
  alg : string;
  func : test_func;
  blockcipher : blockcipher_testvec;
  aead : aead_testvec;
  skcipher : skcipher_testvec;
  hash : hash_testvec;
  drbg : drbg_testvec
}.

(** ** Configuration and constants of the surrounding kernel *)

(** What the file takes from headers that are not part of it: the
    CONFIG_CRYPTO_FIPS140_MOD_ERROR_INJECTION switch, the global
    [fips140_broken_alg] (NULL is [None]), the flag bit CRYPTO_ALG_ASYNC and
    the buffer-size constants. *)
Record kconfig := {
  CONFIG_CRYPTO_FIPS140_MOD_ERROR_INJECTION : bool;
  fips140_broken_alg : option string;
  CRYPTO_ALG_ASYNC : Z;
  MAX_CIPHER_BLOCKSIZE : Z;
  AES_BLOCK_SIZE : Z;
  HASH_MAX_DIGESTSIZE : Z;
  SHA256_DIGEST_SIZE : Z
}.

(** The values of include/linux/crypto.h, crypto/aes.h, crypto/hash.h and
    crypto/sha.h, for a given error-injection setting. *)
Definition linux_config (inject : bool) (broken : option string) : kconfig :=
  {| CONFIG_CRYPTO_FIPS140_MOD_ERROR_INJECTION := inject;
     fips140_broken_alg := broken;
     CRYPTO_ALG_ASYNC := 0x80;
     MAX_CIPHER_BLOCKSIZE := 16;
     AES_BLOCK_SIZE := 16;
     HASH_MAX_DIGESTSIZE := 64;
     SHA256_DIGEST_SIZE := 32 |}.

(** ** The crypto API and the allocator, as seen from the self-tests *)

(** A pointer into the crypto API's objects. *)
Definition handle := Z.

(** What [crypto_alloc_*] returns: an error pointer, which IS_ERR() tells
    from an instance because it encodes a negated errno, or an instance. *)
Inductive ptr_result :=
| ERR_PTR (errno : positive)
| PTR (tfm : handle).

Definition PTR_ERR (errno : positive) : Z := Z.neg errno.

(** The fields of a [struct crypto_alg] that the self-tests read. *)
Record crypto_alg := {
  cra_flags : Z;
  cra_name : string;
  cra_driver_name : string
}.

(** A [struct drbg_string]: a buffer and its length. *)
Record drbg_string := {
  ds_buf : bytes;
  ds_len : Z
}.

Definition drbg_string_fill (buf : bytes) (len : Z) : drbg_string :=
  {| ds_buf := buf; ds_len := len |}.

(** Every operation the self-tests ask of their environment.  An operation
    that works on a buffer in place is given the buffer's contents and
    returns the new contents.  [Crypto_aead_authsize], the tag size that an
    AEAD instance reports, is the one operation listed that the self-tests
    never ask for: it is there for the statements about it. *)
Inductive call :=
(* crypto_cipher and the AES library *)
| Crypto_alloc_cipher (name : string)
| Cipher_alg (tfm : handle)
| Crypto_cipher_blocksize (tfm : handle)
| Crypto_cipher_setkey (tfm : handle) (key : bytes) (keylen : Z)
| Crypto_cipher_encrypt_one (tfm : handle) (src : bytes)
| Crypto_cipher_decrypt_one (tfm : handle) (src : bytes)
| Crypto_free_cipher (tfm : handle)
| Aes_expandkey (key : bytes) (keylen : Z)
| Aes_encrypt (ctx : bytes) (src : bytes)
| Aes_decrypt (ctx : bytes) (src : bytes)
(* crypto_skcipher *)
| Crypto_alloc_skcipher (name : string)
| Skcipher_alg (tfm : handle)
| Crypto_skcipher_ivsize (tfm : handle)
| Skcipher_request_alloc (tfm : handle)
| Crypto_skcipher_setkey (tfm : handle) (key : bytes) (keylen : Z)
| Crypto_skcipher_encrypt (req : handle) (msg : bytes) (cryptlen : Z) (iv : bytes)
| Crypto_skcipher_decrypt (req : handle) (msg : bytes) (cryptlen : Z) (iv : bytes)
| Skcipher_request_free (req : option handle)
| Crypto_free_skcipher (tfm : handle)
(* crypto_aead *)
| Crypto_alloc_aead (name : string)
| Aead_alg (tfm : handle)
| Crypto_aead_ivsize (tfm : handle)
| Aead_request_alloc (tfm : handle)
| Crypto_aead_setkey (tfm : handle) (key : bytes) (keylen : Z)
| Crypto_aead_setauthsize (tfm : handle) (authsize : Z)
| Crypto_aead_authsize (tfm : handle)
| Crypto_aead_encrypt (req : handle) (sg : list (bytes * Z)) (assoclen : Z)
    (cryptlen : Z) (iv : bytes)
| Crypto_aead_decrypt (req : handle) (sg : list (bytes * Z)) (assoclen : Z)
    (cryptlen : Z) (iv : bytes)
| Aead_request_free (req : option handle)
| Crypto_free_aead (tfm : handle)
(* crypto_shash and the SHA-256 library *)
| Crypto_alloc_shash (name : string)
| Shash_alg (tfm : handle)
| Crypto_shash_digestsize (tfm : handle)
| Crypto_shash_setkey (tfm : handle) (key : bytes) (keylen : Z)
| Crypto_shash_tfm_digest (tfm : handle) (data : bytes) (len : Z)
| Crypto_free_shash (tfm : handle)
| Sha256 (data : bytes) (len : Z)
(* crypto_rng: the DRBG *)
| Crypto_alloc_rng (name : string)
| Rng_alg (rng : handle)
| Crypto_drbg_reset_test (rng : handle) (pers : drbg_string)
    (testentropy : drbg_string)
| Crypto_drbg_get_bytes_addtl_test (rng : handle) (outlen : Z)
    (addtl : drbg_string) (testentropy : drbg_string)
| Crypto_drbg_get_bytes_addtl (rng : handle) (outlen : Z) (addtl : drbg_string)
| Crypto_free_rng (rng : handle)
(* the allocator *)
| Kmalloc (size : Z)
| Kfree (allocated : bool).

(** The type of what each operation returns: an [int] status, a size, the
    new contents of a buffer, or both a status and contents. *)
Definition answer (c : call) : Type :=
  match c with
  | Crypto_alloc_cipher _ | Crypto_alloc_skcipher _ | Crypto_alloc_aead _
  | Crypto_alloc_shash _ | Crypto_alloc_rng _ => ptr_result
  | Cipher_alg _ | Skcipher_alg _ | Aead_alg _
  | Shash_alg _ | Rng_alg _ => crypto_alg
  | Crypto_cipher_blocksize _ | Crypto_skcipher_ivsize _
  | Crypto_aead_ivsize _ | Crypto_shash_digestsize _
  | Crypto_aead_authsize _ => Z
  | Crypto_cipher_setkey _ _ _ | Crypto_skcipher_setkey _ _ _
  | Crypto_aead_setkey _ _ _ | Crypto_shash_setkey _ _ _
  | Crypto_aead_setauthsize _ _ | Crypto_drbg_reset_test _ _ _ => Z
  | Crypto_cipher_encrypt_one _ _ | Crypto_cipher_decrypt_one _ _
  | Aes_encrypt _ _ | Aes_decrypt _ _ | Sha256 _ _ => bytes
  | Aes_expandkey _ _ => Z * bytes
  | Skcipher_request_alloc _ | Aead_request_alloc _ => option handle
  | Crypto_skcipher_encrypt _ _ _ _ | Crypto_skcipher_decrypt _ _ _ _
  | Crypto_aead_encrypt _ _ _ _ _ | Crypto_aead_decrypt _ _ _ _ _
  | Crypto_shash_tfm_digest _ _ _
  | Crypto_drbg_get_bytes_addtl_test _ _ _ _
  | Crypto_drbg_get_bytes_addtl _ _ _ => Z * bytes
  | Crypto_free_cipher _ | Crypto_free_skcipher _ | Crypto_free_aead _
  | Crypto_free_shash _ | Crypto_free_rng _
  | Skcipher_request_free _ | Aead_request_free _ | Kfree _ => unit
  | Kmalloc _ => bool
  end.

(** The environment: how a world answers an operation and what world it
    leaves. *)
Definition crypto_api (W : Type) : Type := forall c : call, W -> answer c * W.

(** An argument of a printk format. *)
Inductive parg :=
| PStr (s : string)
| PInt (z : Z).

(** What a run leaves behind, in order. *)
Inductive event :=
| Called (c : call)
| Pr_info (fmt : string) (args : list parg)
| Pr_err (fmt : string) (args : list parg)
| Pr_emerg (fmt : string) (args : list parg)
| Warned.

Record state (W : Type) := {
  world : W;
  trace : list event
}.
Arguments world {W} _.
Arguments trace {W} _.

(** ** The state monad of the test functions *)

Definition M (W A : Type) : Type := state W -> A * state W.

Definition ret {W A} (a : A) : M W A := fun s => (a, s).

Definition bind {W A B} (m : M W A) (k : A -> M W B) : M W B :=
  fun s => let (a, s') := m s in k a s'.

Notation "x <- m ;; k" := (bind m (fun x => k))
  (at level 61, m at next level, right associativity).
Notation "' p <- m ;; k" := (bind m (fun x => let p := x in k))
  (at level 61, p pattern, m at next level, right associativity).
Notation "m ;;; k" := (bind m (fun _ => k))
  (at level 61, right associativity).

Definition log {W} (e : event) : M W unit :=
  fun s => (tt, {| world := world s; trace := trace s ++ [e] |}).

Definition pr_info {W} fmt args : M W unit := log (Pr_info fmt args).
Definition pr_err {W} fmt args : M W unit := log (Pr_err fmt args).
Definition pr_emerg {W} fmt args : M W unit := log (Pr_emerg fmt args).

(** [WARN_ON(cond)]: warns when the condition holds, and returns it. *)
Definition WARN_ON {W} (cond : bool) : M W bool :=
  if cond then log Warned ;;; ret true else ret false.

(** An operation of the environment: recorded, then answered. *)
Definition do_call {W} (api : crypto_api W) (c : call) : M W (answer c) :=
  fun s =>
    let (a, w) := api c (world s) in
    (a, {| world := w; trace := trace s ++ [Called c] |}).

(** [if (err) goto out;] in front of the rest of a function body. *)
Definition on_success {W} (err : Z) (rest : M W Z) : M W Z :=
  if err =? 0 then rest else ret err.

(** ** The comparator, the validator and the test functions *)

Section SelfTests.

Context {W : Type}.
Variable api : crypto_api W.
Variable cfg : kconfig.

(** Whether the error-injection block of [fips_check_result] is compiled in
    and its condition [fips140_broken_alg && strcmp(...) == 0] holds. *)
Definition injection_applies (test : fips_test) : bool :=
  CONFIG_CRYPTO_FIPS140_MOD_ERROR_INJECTION cfg &&
  match fips140_broken_alg cfg with
  | Some broken => strcmp (alg test) broken =? 0
  | None => false
  end.

(** The comparator.  The result buffer is the caller's: its contents after
    the call are returned next to the status. *)
Definition fips_check_result (test : fips_test) (result expected_result : bytes)
    (result_size : Z) (operation : string) : M W (Z * bytes) :=
  (* Inject a failure (via corrupting the result) if requested. *)
  let result :=
    if injection_applies test then corrupt_first_byte result else result in
  if negb (memcmp result expected_result (Z.to_nat result_size) =? 0) then
    pr_err "wrong result from %s %s\n" [PStr (alg test); PStr operation] ;;;
    ret (- EBADMSG, result)
  else
    ret (0, result).

(** None of the algorithms should be ASYNC, as the FIPS module doesn't
    register any ASYNC algorithms. *)
Definition fips_validate_alg (a : crypto_alg) : M W Z :=
  if negb (Z.land (cra_flags a) (CRYPTO_ALG_ASYNC cfg) =? 0) then
    pr_err "unexpectedly got async implementation of %s (%s)\n"
      [PStr (cra_name a); PStr (cra_driver_name a)] ;;;
    ret (- EINVAL)
  else
    ret 0.

Definition kmemdup (src : bytes) (len : Z) : M W (option bytes) :=
  ok <- do_call api (Kmalloc len) ;;
  ret (if ok : bool then Some (firstn (Z.to_nat len) src) else None).

Definition kzalloc (size : Z) : M W (option bytes) :=
  ok <- do_call api (Kmalloc size) ;;
  ret (if ok : bool then Some (repeat 0 (Z.to_nat size)) else None).

Definition kfree (p : option bytes) : M W unit :=
  do_call api (Kfree (match p with Some _ => true | None => false end)).

(** Test a block cipher using the crypto_cipher API. *)
Definition fips_test_blockcipher (test : fips_test) : M W Z :=
  let vec := blockcipher test in
  let block := local_array (MAX_CIPHER_BLOCKSIZE cfg) in
  w <- WARN_ON (block_size vec >? MAX_CIPHER_BLOCKSIZE cfg) ;;
  if w : bool then ret (- EINVAL) else
  tfm <- do_call api (Crypto_alloc_cipher (alg test)) ;;
  match tfm with
  | ERR_PTR errno =>
      let err := PTR_ERR errno in
      pr_err "failed to allocate %s tfm: %d\n" [PStr (alg test); PInt err] ;;;
      ret err
  | PTR tfm =>
      err <- (a <- do_call api (Cipher_alg tfm) ;;
              err <- fips_validate_alg a ;;
              on_success err (
              bs <- do_call api (Crypto_cipher_blocksize tfm) ;;
              if negb (bs =? block_size vec) then
                pr_err "%s has wrong block size\n" [PStr (alg test)] ;;;
                ret (- EINVAL)
              else
              err <- do_call api
                       (Crypto_cipher_setkey tfm (bc_key vec)
                          (to_uint (bc_key_size vec))) ;;
              if negb (err =? 0) then
                pr_err "failed to set %s key: %d\n" [PStr (alg test); PInt err] ;;;
                ret err
              else
              (* Encrypt the plaintext, then verify the resulting ciphertext. *)
              let block := memcpy block (bc_plaintext vec) (block_size vec) in
              block <- do_call api (Crypto_cipher_encrypt_one tfm block) ;;
              ' (err, block) <- fips_check_result test block (bc_ciphertext vec)
                                  (block_size vec) "encryption" ;;
              on_success err (
              (* Decrypt the ciphertext, then verify the resulting plaintext. *)
              block <- do_call api (Crypto_cipher_decrypt_one tfm block) ;;
              ' (err, _) <- fips_check_result test block (bc_plaintext vec)
                              (block_size vec) "decryption" ;;
              ret err))) ;;
      (* out: *)
      do_call api (Crypto_free_cipher tfm) ;;;
      ret err
  end.

(** Test for plain AES (no mode of operation): the "aes" crypto_cipher, then
    the aes_{encrypt,decrypt}() library functions. *)
Definition fips_test_aes (test : fips_test) : M W Z :=
  let vec := blockcipher test in
  w <- WARN_ON (negb (block_size vec =? AES_BLOCK_SIZE cfg)) ;;
  if w : bool then ret (- EINVAL) else
  err <- fips_test_blockcipher test ;;
  if negb (err =? 0) then ret err else
  ' (err, ctx) <- do_call api
    (Aes_expandkey (bc_key vec) (to_uint (bc_key_size vec))) ;;
  if negb (err =? 0) then
    pr_err "aes_expandkey() failed: %d\n" [PInt err] ;;;
    ret err
  else
  block <- do_call api (Aes_encrypt ctx (bc_plaintext vec)) ;;
  ' (err, block) <- fips_check_result test block (bc_ciphertext vec)
                      (AES_BLOCK_SIZE cfg) "encryption (library API)" ;;
  if negb (err =? 0) then ret err else
  block <- do_call api (Aes_decrypt ctx block) ;;
  ' (err, _) <- fips_check_result test block (bc_plaintext vec)
                  (AES_BLOCK_SIZE cfg) "decryption (library API)" ;;
  ret err.

(** Test a length-preserving symmetric cipher using the crypto_skcipher API. *)
Definition fips_test_skcipher (test : fips_test) : M W Z :=
  let vec := skcipher test in
  let iv := local_array MAX_IV_SIZE in
  w <- WARN_ON (sk_iv_size vec >? MAX_IV_SIZE) ;;
  if w : bool then ret (- EINVAL) else
  tfm <- do_call api (Crypto_alloc_skcipher (alg test)) ;;
  match tfm with
  | ERR_PTR errno =>
      let err := PTR_ERR errno in
      pr_err "failed to allocate %s tfm: %d\n" [PStr (alg test); PInt err] ;;;
      ret err
  | PTR tfm =>
      ' (err, req, message) <- (
        a <- do_call api (Skcipher_alg tfm) ;;
        err <- fips_validate_alg a ;;
        if negb (err =? 0) then ret (err, None, None) else
        ivsize <- do_call api (Crypto_skcipher_ivsize tfm) ;;
        if negb (ivsize =? sk_iv_size vec) then
          pr_err "%s has wrong IV size\n" [PStr (alg test)] ;;;
          ret (- EINVAL, None, None)
        else
        req <- do_call api (Skcipher_request_alloc tfm) ;;
        message <- kmemdup (sk_plaintext vec) (sk_message_size vec) ;;
        err <- match req, message with
               | Some r, Some msg =>
                   err <- do_call api
                            (Crypto_skcipher_setkey tfm (sk_key vec)
                               (to_uint (sk_key_size vec))) ;;
                   if negb (err =? 0) then
                     pr_err "failed to set %s key: %d\n"
                       [PStr (alg test); PInt err] ;;;
                     ret err
                   else
                   (* Encrypt the plaintext, then verify the resulting ciphertext. *)
                   let iv := memcpy iv (sk_iv vec) (sk_iv_size vec) in
                   ' (err, msg) <- do_call api
                       (Crypto_skcipher_encrypt r msg
                          (to_uint (sk_message_size vec)) iv) ;;
                   if negb (err =? 0) then
                     pr_err "%s encryption failed: %d\n"
                       [PStr (alg test); PInt err] ;;;
                     ret err
                   else
                   ' (err, msg) <- fips_check_result test msg (sk_ciphertext vec)
                                     (sk_message_size vec) "encryption" ;;
                   on_success err (
                   (* Decrypt the ciphertext, then verify the resulting plaintext. *)
                   let iv := memcpy iv (sk_iv vec) (sk_iv_size vec) in
                   ' (err, msg) <- do_call api
                       (Crypto_skcipher_decrypt r msg
                          (to_uint (sk_message_size vec)) iv) ;;
                   if negb (err =? 0) then
                     pr_err "%s decryption failed: %d\n"
                       [PStr (alg test); PInt err] ;;;
                     ret err
                   else
                   ' (err, _) <- fips_check_result test msg (sk_plaintext vec)
                                   (sk_message_size vec) "decryption" ;;
                   ret err)
               | _, _ => ret (- ENOMEM)
               end ;;
        ret (err, req, message)) ;;
      (* out: *)
      kfree message ;;;
      do_call api (Skcipher_request_free req) ;;;
      do_call api (Crypto_free_skcipher tfm) ;;;
      ret err
  end.

(** Test an AEAD using the crypto_aead API. *)
Definition fips_test_aead (test : fips_test) : M W Z :=
  let vec := aead test in
  let tag_size := to_int (size_sub (ciphertext_size vec) (plaintext_size vec)) in
  let iv := local_array MAX_IV_SIZE in
  w <- WARN_ON (aead_iv_size vec >? MAX_IV_SIZE) ;;
  if w : bool then ret (- EINVAL) else
  w <- WARN_ON (ciphertext_size vec <=? plaintext_size vec) ;;
  if w : bool then ret (- EINVAL) else
  tfm <- do_call api (Crypto_alloc_aead (alg test)) ;;
  match tfm with
  | ERR_PTR errno =>
      let err := PTR_ERR errno in
      pr_err "failed to allocate %s tfm: %d\n" [PStr (alg test); PInt err] ;;;
      ret err
  | PTR tfm =>
      ' (err, req, assoc_buf, message) <- (
        a <- do_call api (Aead_alg tfm) ;;
        err <- fips_validate_alg a ;;
        if negb (err =? 0) then ret (err, None, None, None) else
        ivsize <- do_call api (Crypto_aead_ivsize tfm) ;;
        if negb (ivsize =? aead_iv_size vec) then
          pr_err "%s has wrong IV size\n" [PStr (alg test)] ;;;
          ret (- EINVAL, None, None, None)
        else
        req <- do_call api (Aead_request_alloc tfm) ;;
        assoc_buf <- kmemdup (assoc vec) (assoc_size vec) ;;
        message <- kzalloc (ciphertext_size vec) ;;
        err <- match req, assoc_buf, message with
               | Some r, Some ad, Some msg =>
                   let msg := memcpy msg (aead_plaintext vec) (plaintext_size vec) in
                   let sg_assoc :=
                     if negb (assoc_size vec =? 0)
                     then [(ad, to_uint (assoc_size vec))] else [] in
                   err <- do_call api
                            (Crypto_aead_setkey tfm (aead_key vec)
                               (to_uint (aead_key_size vec))) ;;
                   if negb (err =? 0) then
                     pr_err "failed to set %s key: %d\n"
                       [PStr (alg test); PInt err] ;;;
                     ret err
                   else
                   err <- do_call api
                            (Crypto_aead_setauthsize tfm (to_uint tag_size)) ;;
                   if negb (err =? 0) then
                     pr_err "failed to set %s authentication tag size: %d\n"
                       [PStr (alg test); PInt err] ;;;
                     ret err
                   else
                   (* Encrypt the plaintext, then verify the resulting
                      ciphertext (which includes the authentication tag). *)
                   let iv := memcpy iv (aead_iv vec) (aead_iv_size vec) in
                   ' (err, msg) <- do_call api
                       (Crypto_aead_encrypt r
                          (sg_assoc ++ [(msg, to_uint (ciphertext_size vec))])
                          (to_uint (assoc_size vec))
                          (to_uint (plaintext_size vec)) iv) ;;
                   if negb (err =? 0) then
                     pr_err "%s encryption failed: %d\n"
                       [PStr (alg test); PInt err] ;;;
                     ret err
                   else
                   ' (err, msg) <- fips_check_result test msg (aead_ciphertext vec)
                                     (ciphertext_size vec) "encryption" ;;
                   on_success err (
                   (* Decrypt the ciphertext (which includes the
                      authentication tag), then verify the resulting
                      plaintext. *)
                   let iv := memcpy iv (aead_iv vec) (aead_iv_size vec) in
                   ' (err, msg) <- do_call api
                       (Crypto_aead_decrypt r
                          (sg_assoc ++ [(msg, to_uint (ciphertext_size vec))])
                          (to_uint (assoc_size vec))
                          (to_uint (ciphertext_size vec)) iv) ;;
                   if negb (err =? 0) then
                     pr_err "%s decryption failed: %d\n"
                       [PStr (alg test); PInt err] ;;;
                     ret err
                   else
                   ' (err, _) <- fips_check_result test msg (aead_plaintext vec)
                                   (plaintext_size vec) "decryption" ;;
                   ret err)
               | _, _, _ => ret (- ENOMEM)
               end ;;
        ret (err, req, assoc_buf, message)) ;;
      (* out: *)
      kfree message ;;;
      kfree assoc_buf ;;;
      do_call api (Aead_request_free req) ;;;
      do_call api (Crypto_free_aead tfm) ;;;
      ret err
  end.

(** Test a hash algorithm using the crypto_shash API. *)
Definition fips_test_hash (test : fips_test) : M W Z :=
  let vec := hash test in
  w <- WARN_ON (digest_size vec >? HASH_MAX_DIGESTSIZE cfg) ;;
  if w : bool then ret (- EINVAL) else
  tfm <- do_call api (Crypto_alloc_shash (alg test)) ;;
  match tfm with
  | ERR_PTR errno =>
      let err := PTR_ERR errno in
      pr_err "failed to allocate %s tfm: %d\n" [PStr (alg test); PInt err] ;;;
      ret err
  | PTR tfm =>
      err <- (a <- do_call api (Shash_alg tfm) ;;
              err <- fips_validate_alg a ;;
              on_success err (
              dsize <- do_call api (Crypto_shash_digestsize tfm) ;;
              if negb (dsize =? digest_size vec) then
                pr_err "%s has wrong digest size\n" [PStr (alg test)] ;;;
                ret (- EINVAL)
              else
              err <- match hash_key vec with
                     | Some key =>
                         err <- do_call api
                                  (Crypto_shash_setkey tfm key
                                     (to_uint (hash_key_size vec))) ;;
                         if negb (err =? 0) then
                           pr_err "failed to set %s key: %d\n"
                             [PStr (alg test); PInt err] ;;;
                           ret err
                         else ret 0
                     | None => ret 0
                     end ;;
              on_success err (
              ' (err, dgst) <- do_call api
                  (Crypto_shash_tfm_digest tfm (message vec)
                     (to_uint (message_size vec))) ;;
              if negb (err =? 0) then
                pr_err "%s digest computation failed: %d\n"
                  [PStr (alg test); PInt err] ;;;
                ret err
              else
              ' (err, _) <- fips_check_result test dgst (digest vec)
                              (digest_size vec) "digest" ;;
              ret err))) ;;
      (* out: *)
      do_call api (Crypto_free_shash tfm) ;;;
      ret err
  end.

(** Test the sha256() library function. *)
Definition fips_test_sha256_library (test : fips_test) : M W Z :=
  let vec := hash test in
  w <- WARN_ON (negb (digest_size vec =? SHA256_DIGEST_SIZE cfg)) ;;
  if w : bool then ret (- EINVAL) else
  dgst <- do_call api (Sha256 (message vec) (to_uint (message_size vec))) ;;
  ' (err, _) <- fips_check_result test dgst (digest vec) (digest_size vec)
                  "digest (library API)" ;;
  ret err.

(** One of the two generate calls of the DRBG test: with the additional
    entropy when the vector has some (the prediction-resistant variants). *)
Definition drbg_generate (vec : drbg_testvec) (rng : handle)
    (add entpr : bytes) : M W (Z * bytes) :=
  let addtl := drbg_string_fill add (add_size vec) in
  if negb (entpr_size vec =? 0) then
    let testentropy := drbg_string_fill entpr (entpr_size vec) in
    do_call api (Crypto_drbg_get_bytes_addtl_test rng (to_uint (out_size vec))
                   addtl
                   testentropy)
  else
    do_call api (Crypto_drbg_get_bytes_addtl rng (to_uint (out_size vec)) addtl).

(** Test a DRBG using the crypto_rng API. *)
Definition fips_test_drbg (test : fips_test) : M W Z :=
  let vec := drbg test in
  rng <- do_call api (Crypto_alloc_rng (alg test)) ;;
  match rng with
  | ERR_PTR errno =>
      let err := PTR_ERR errno in
      pr_err "failed to allocate %s tfm: %d\n" [PStr (alg test); PInt err] ;;;
      ret err
  | PTR rng =>
      ' (err, out) <- (
        a <- do_call api (Rng_alg rng) ;;
        err <- fips_validate_alg a ;;
        if negb (err =? 0) then ret (err, None) else
        out <- kzalloc (out_size vec) ;;
        match out with
        | None => ret (- ENOMEM, None)
        | Some _ =>
            (* Initialize the DRBG with the entropy and personalization
               string given in the test vector. *)
            let testentropy := drbg_string_fill (entropy vec) (entropy_size vec) in
            let pers_str := drbg_string_fill (pers vec) (pers_size vec) in
            err <- do_call api (Crypto_drbg_reset_test rng pers_str testentropy) ;;
            if negb (err =? 0) then
              pr_err "failed to reset %s\n" [PStr (alg test)] ;;;
              ret (err, out)
            else
            (* Generate some random bytes using the additional data string
               provided in the test vector. *)
            ' (err, buf) <- drbg_generate vec rng (add_a vec) (entpr_a vec) ;;
            if negb (err =? 0) then
              pr_err "failed to get bytes from %s (try 1): %d\n"
                [PStr (alg test); PInt err] ;;;
              ret (err, out)
            else
            (* Do the same again, using a second additional data string, and
               (when applicable) a second additional entropy string. *)
            ' (err, buf) <- drbg_generate vec rng (add_b vec) (entpr_b vec) ;;
            if negb (err =? 0) then
              pr_err "failed to get bytes from %s (try 2): %d\n"
                [PStr (alg test); PInt err] ;;;
              ret (err, out)
            else
            (* Check that the DRBG generated the expected output. *)
            ' (err, _) <- fips_check_result test buf (output vec) (out_size vec)
                            "get_bytes" ;;
            ret (err, out)
        end) ;;
      (* out: *)
      kfree out ;;;
      do_call api (Crypto_free_rng rng) ;;;
      ret err
  end.

(** The call [test->func(test)]. *)
Definition call_func (test : fips_test) : M W Z :=
  match func test with
  | Fips_test_blockcipher => fips_test_blockcipher test
  | Fips_test_aes => fips_test_aes test
  | Fips_test_skcipher => fips_test_skcipher test
  | Fips_test_aead => fips_test_aead test
  | Fips_test_hash => fips_test_hash test
  | Fips_test_sha256_library => fips_test_sha256_library test
  | Fips_test_drbg => fips_test_drbg test
  end.

(** The loop of [fips140_run_selftests] over the entries that are left. *)
Fixpoint run_selftests_from (tests : list fips_test) : M W bool :=
  match tests with
  | [] =>
      pr_info "all self-tests passed\n" [] ;;;
      ret true
  | test :: rest =>
      err <- call_func test ;;
      if negb (err =? 0) then
        pr_emerg "self-tests failed for algorithm %s: %d\n"
          [PStr (alg test); PInt err] ;;;
        (* The caller is responsible for calling panic(). *)
        ret false
      else run_selftests_from rest
  end.

End SelfTests.

(** ** The registry *)

(** The arrays of fips140-generated-testvecs.h, which the registry names but
    which are generated by tools/crypto/gen_fips140_testvecs.py. *)
Record generated_testvecs := {
  fips_aes_key : bytes;
  fips_message : bytes;
  fips_aes_iv : bytes;
  fips_aes_ecb_ciphertext : bytes;
  fips_aes_cbc_ciphertext : bytes;
  fips_aes_ctr_ciphertext : bytes;
  fips_aes_gcm_assoc : bytes;
  fips_aes_gcm_ciphertext : bytes;
  fips_aes_xts_key : bytes;
  fips_aes_xts_ciphertext : bytes;
  fips_sha1_digest : bytes;
  fips_sha256_digest : bytes;
  fips_hmac_key : bytes;
  fips_hmac_sha256_digest : bytes;
  fips_sha512_digest : bytes
}.

Definition sizeof (a : bytes) : Z := Z.of_nat (List.length a).

(** The members of the union that an initialiser does not name. *)
Definition no_blockcipher : blockcipher_testvec :=
  {| bc_key := []; bc_key_size := 0; bc_plaintext := []; bc_ciphertext := [];
     block_size := 0 |}.
Definition no_aead : aead_testvec :=
  {| aead_key := []; aead_key_size := 0; aead_iv := []; aead_iv_size := 0;
     assoc := []; assoc_size := 0; aead_plaintext := []; plaintext_size := 0;
     aead_ciphertext := []; ciphertext_size := 0 |}.
Definition no_skcipher : skcipher_testvec :=
  {| sk_key := []; sk_key_size := 0; sk_iv := []; sk_iv_size := 0;
     sk_plaintext := []; sk_ciphertext := []; sk_message_size := 0 |}.
Definition no_hash : hash_testvec :=
  {| hash_key := None; hash_key_size := 0; message := []; message_size := 0;
     digest := []; digest_size := 0 |}.
Definition no_drbg : drbg_testvec :=
  {| entropy := []; entropy_size := 0; pers := []; pers_size := 0;
     entpr_a := []; entpr_b := []; entpr_size := 0;
     add_a := []; add_b := []; add_size := 0; output := []; out_size := 0 |}.

Definition blockcipher_test name f v : fips_test :=
  {| alg := name; func := f; blockcipher := v; aead := no_aead;
     skcipher := no_skcipher; hash := no_hash; drbg := no_drbg |}.
Definition aead_test name f v : fips_test :=
  {| alg := name; func := f; blockcipher := no_blockcipher; aead := v;
     skcipher := no_skcipher; hash := no_hash; drbg := no_drbg |}.
Definition skcipher_test name f v : fips_test :=
  {| alg := name; func := f; blockcipher := no_blockcipher; aead := no_aead;
     skcipher := v; hash := no_hash; drbg := no_drbg |}.
Definition hash_test name f v : fips_test :=
  {| alg := name; func := f; blockcipher := no_blockcipher; aead := no_aead;
     skcipher := no_skcipher; hash := v; drbg := no_drbg |}.
Definition drbg_test name f v : fips_test :=
  {| alg := name; func := f; blockcipher := no_blockcipher; aead := no_aead;
     skcipher := no_skcipher; hash := no_hash; drbg := v |}.

(** The DRBG vectors, from the NIST drbgtestvectors. *)
Definition drbg_nopr_entropy : bytes :=
  [
     0xf9; 0x7a; 0x3c; 0xfd; 0x91; 0xfa; 0xa0; 0x46;
     0xb9; 0xe6; 0x1b; 0x94; 0x93; 0xd4; 0x36; 0xc4;
     0x93; 0x1f; 0x60; 0x4b; 0x22; 0xf1; 0x08; 0x15;
     0x21; 0xb3; 0x41; 0x91; 0x51; 0xe8; 0xff; 0x06;
     0x11; 0xf3; 0xa7; 0xd4; 0x35; 0x95; 0x35; 0x7d;
     0x58; 0x12; 0x0b; 0xd1; 0xe2; 0xdd; 0x8a; 0xed ].

Definition drbg_nopr_output : bytes :=
  [
     0xc6; 0x87; 0x1c; 0xff; 0x08; 0x24; 0xfe; 0x55;
     0xea; 0x76; 0x89; 0xa5; 0x22; 0x29; 0x88; 0x67;
     0x30; 0x45; 0x0e; 0x5d; 0x36; 0x2d; 0xa5; 0xbf;
     0x59; 0x0d; 0xcf; 0x9a; 0xcd; 0x67; 0xfe; 0xd4;
     0xcb; 0x32; 0x10; 0x7d; 0xf5; 0xd0; 0x39; 0x69;
     0xa6; 0x6b; 0x1f; 0x64; 0x94; 0xfd; 0xf5; 0xd6;
     0x3d; 0x5b; 0x4d; 0x0d; 0x34; 0xea; 0x73; 0x99;
     0xa0; 0x7d; 0x01; 0x16; 0x12; 0x6d; 0x0d; 0x51;
     0x8c; 0x7c; 0x55; 0xba; 0x46; 0xe1; 0x2f; 0x62;
     0xef; 0xc8; 0xfe; 0x28; 0xa5; 0x1c; 0x9d; 0x42;
     0x8e; 0x6d; 0x37; 0x1d; 0x73; 0x97; 0xab; 0x31;
     0x9f; 0xc7; 0x3d; 0xed; 0x47; 0x22; 0xe5; 0xb4;
     0xf3; 0x00; 0x04; 0x03; 0x2a; 0x61; 0x28; 0xdf;
     0x5e; 0x74; 0x97; 0xec; 0xf8; 0x2c; 0xa7; 0xb0;
     0xa5; 0x0e; 0x86; 0x7e; 0xf6; 0x72; 0x8a; 0x4f;
     0x50; 0x9a; 0x8c; 0x85; 0x90; 0x87; 0x03; 0x9c ].

Definition drbg_nopr_add_a : bytes :=
  [
     0x51; 0x72; 0x89; 0xaf; 0xe4; 0x44; 0xa0; 0xfe;
     0x5e; 0xd1; 0xa4; 0x1d; 0xbb; 0xb5; 0xeb; 0x17;
     0x15; 0x00; 0x79; 0xbd; 0xd3; 0x1e; 0x29; 0xcf;
     0x2f; 0xf3; 0x00; 0x34; 0xd8; 0x26; 0x8e; 0x3b ].

Definition drbg_nopr_add_b : bytes :=
  [
     0x88; 0x02; 0x8d; 0x29; 0xef; 0x80; 0xb4; 0xe6;
     0xf0; 0xfe; 0x12; 0xf9; 0x1d; 0x74; 0x49; 0xfe;
     0x75; 0x06; 0x26; 0x82; 0xe8; 0x9c; 0x57; 0x14;
     0x40; 0xc0; 0xc9; 0xb5; 0x2c; 0x42; 0xa6; 0xe0 ].

Definition drbg_pr_entropy : bytes :=
  [
     0xc7; 0xcc; 0xbc; 0x67; 0x7e; 0x21; 0x66; 0x1e;
     0x27; 0x2b; 0x63; 0xdd; 0x3a; 0x78; 0xdc; 0xdf;
     0x66; 0x6d; 0x3f; 0x24; 0xae; 0xcf; 0x37; 0x01;
     0xa9; 0x0d; 0x89; 0x8a; 0xa7; 0xdc; 0x81; 0x58;
     0xae; 0xb2; 0x10; 0x15; 0x7e; 0x18; 0x44; 0x6d;
     0x13; 0xea; 0xdf; 0x37; 0x85; 0xfe; 0x81; 0xfb ].

Definition drbg_pr_entpr_a : bytes :=
  [
     0x7b; 0xa1; 0x91; 0x5b; 0x3c; 0x04; 0xc4; 0x1b;
     0x1d; 0x19; 0x2f; 0x1a; 0x18; 0x81; 0x60; 0x3c;
     0x6c; 0x62; 0x91; 0xb7; 0xe9; 0xf5; 0xcb; 0x96;
     0xbb; 0x81; 0x6a; 0xcc; 0xb5; 0xae; 0x55; 0xb6 ].

Definition drbg_pr_entpr_b : bytes :=
  [
     0x99; 0x2c; 0xc7; 0x78; 0x7e; 0x3b; 0x88; 0x12;
     0xef; 0xbe; 0xd3; 0xd2; 0x7d; 0x2a; 0xa5; 0x86;
     0xda; 0x8d; 0x58; 0x73; 0x4a; 0x0a; 0xb2; 0x2e;
     0xbb; 0x4c; 0x7e; 0xe3; 0x9a; 0xb6; 0x81; 0xc1 ].

Definition drbg_pr_output : bytes :=
  [
     0x95; 0x6f; 0x95; 0xfc; 0x3b; 0xb7; 0xfe; 0x3e;
     0xd0; 0x4e; 0x1a; 0x14; 0x6c; 0x34; 0x7f; 0x7b;
     0x1d; 0x0d; 0x63; 0x5e; 0x48; 0x9c; 0x69; 0xe6;
     0x46; 0x07; 0xd2; 0x87; 0xf3; 0x86; 0x52; 0x3d;
     0x98; 0x27; 0x5e; 0xd7; 0x54; 0xe7; 0x75; 0x50;
     0x4f; 0xfb; 0x4d; 0xfd; 0xac; 0x2f; 0x4b; 0x77;
     0xcf; 0x9e; 0x8e; 0xcc; 0x16; 0xa2; 0x24; 0xcd;
     0x53; 0xde; 0x3e; 0xc5; 0x55; 0x5d; 0xd5; 0x26;
     0x3f; 0x89; 0xdf; 0xca; 0x8b; 0x4e; 0x1e; 0xb6;
     0x88; 0x78; 0x63; 0x5c; 0xa2; 0x63; 0x98; 0x4e;
     0x6f; 0x25; 0x59; 0xb1; 0x5f; 0x2b; 0x23; 0xb0;
     0x4b; 0xa5; 0x18; 0x5d; 0xc2; 0x15; 0x74; 0x40;
     0x59; 0x4c; 0xb4; 0x1e; 0xcf; 0x9a; 0x36; 0xfd;
     0x43; 0xe2; 0x03; 0xb8; 0x59; 0x91; 0x30; 0x89;
     0x2a; 0xc8; 0x5a; 0x43; 0x23; 0x7c; 0x73; 0x72;
     0xda; 0x3f; 0xad; 0x2b; 0xba; 0x00; 0x6b; 0xd1 ].

Definition drbg_pr_add_a : bytes :=
  [
     0x18; 0xe8; 0x17; 0xff; 0xef; 0x39; 0xc7; 0x41;
     0x5c; 0x73; 0x03; 0x03; 0xf6; 0x3d; 0xe8; 0x5f;
     0xc8; 0xab; 0xe4; 0xab; 0x0f; 0xad; 0xe8; 0xd6;
     0x86; 0x88; 0x55; 0x28; 0xc1; 0x69; 0xdd; 0x76 ].

Definition drbg_pr_add_b : bytes :=
  [
     0xac; 0x07; 0xfc; 0xbe; 0x87; 0x0e; 0xd3; 0xea;
     0x1f; 0x7e; 0xb8; 0xe7; 0x9d; 0xec; 0xe8; 0xe7;
     0xbc; 0xf3; 0x18; 0x25; 0x77; 0x35; 0x4a; 0xaa;
     0x00; 0x99; 0x2a; 0xdd; 0x0a; 0x00; 0x50; 0x82 ].

Definition drbg_pr_pers : bytes :=
  [
     0xbc; 0x55; 0xab; 0x3c; 0xf6; 0x52; 0xb0; 0x11;
     0x3d; 0x7b; 0x90; 0xb8; 0x24; 0xc9; 0x26; 0x4e;
     0x5a; 0x1e; 0x77; 0x0d; 0x3d; 0x58; 0x4a; 0xda;
     0xd1; 0x81; 0xe9; 0xf8; 0xeb; 0x30; 0x8f; 0x6f ].

(** List of all self-tests. *)
Definition fips140_selftests (tv : generated_testvecs) : list fips_test :=
  [ (* Tests for AES and AES modes. *)
    blockcipher_test "aes" Fips_test_aes
      {| bc_key := fips_aes_key tv;
         bc_key_size := sizeof (fips_aes_key tv);
         bc_plaintext := fips_message tv;
         bc_ciphertext := fips_aes_ecb_ciphertext tv;
         block_size := 16 |};
    skcipher_test "cbc(aes)" Fips_test_skcipher
      {| sk_key := fips_aes_key tv;
         sk_key_size := sizeof (fips_aes_key tv);
         sk_iv := fips_aes_iv tv;
         sk_iv_size := sizeof (fips_aes_iv tv);
         sk_plaintext := fips_message tv;
         sk_ciphertext := fips_aes_cbc_ciphertext tv;
         sk_message_size := sizeof (fips_message tv) |};
    skcipher_test "ctr(aes)" Fips_test_skcipher
      {| sk_key := fips_aes_key tv;
         sk_key_size := sizeof (fips_aes_key tv);
         sk_iv := fips_aes_iv tv;
         sk_iv_size := sizeof (fips_aes_iv tv);
         sk_plaintext := fips_message tv;
         sk_ciphertext := fips_aes_ctr_ciphertext tv;
         sk_message_size := sizeof (fips_message tv) |};
    skcipher_test "ecb(aes)" Fips_test_skcipher
      {| sk_key := fips_aes_key tv;
         sk_key_size := sizeof (fips_aes_key tv);
         sk_iv := [];
         sk_iv_size := 0;
         sk_plaintext := fips_message tv;
         sk_ciphertext := fips_aes_ecb_ciphertext tv;
         sk_message_size := sizeof (fips_message tv) |};
    aead_test "gcm(aes)" Fips_test_aead
      {| aead_key := fips_aes_key tv;
         aead_key_size := sizeof (fips_aes_key tv);
         aead_iv := fips_aes_iv tv;
         (* The GCM implementation assumes an IV size of 12. *)
         aead_iv_size := 12;
         assoc := fips_aes_gcm_assoc tv;
         assoc_size := sizeof (fips_aes_gcm_assoc tv);
         aead_plaintext := fips_message tv;
         plaintext_size := sizeof (fips_message tv);
         aead_ciphertext := fips_aes_gcm_ciphertext tv;
         ciphertext_size := sizeof (fips_aes_gcm_ciphertext tv) |};
    skcipher_test "xts(aes)" Fips_test_skcipher
      {| sk_key := fips_aes_xts_key tv;
         sk_key_size := sizeof (fips_aes_xts_key tv);
         sk_iv := fips_aes_iv tv;
         sk_iv_size := sizeof (fips_aes_iv tv);
         sk_plaintext := fips_message tv;
         sk_ciphertext := fips_aes_xts_ciphertext tv;
         sk_message_size := sizeof (fips_message tv) |};
    (* Tests for SHA-1, SHA-256, HMAC-SHA256, and SHA-512. *)
    hash_test "sha1" Fips_test_hash
      {| hash_key := None;
         hash_key_size := 0;
         message := fips_message tv;
         message_size := sizeof (fips_message tv);
         digest := fips_sha1_digest tv;
         digest_size := sizeof (fips_sha1_digest tv) |};
    hash_test "sha256" Fips_test_sha256_library
      {| hash_key := None;
         hash_key_size := 0;
         message := fips_message tv;
         message_size := sizeof (fips_message tv);
         digest := fips_sha256_digest tv;
         digest_size := sizeof (fips_sha256_digest tv) |};
    hash_test "hmac(sha256)" Fips_test_hash
      {| hash_key := Some (fips_hmac_key tv);
         hash_key_size := sizeof (fips_hmac_key tv);
         message := fips_message tv;
         message_size := sizeof (fips_message tv);
         digest := fips_hmac_sha256_digest tv;
         digest_size := sizeof (fips_hmac_sha256_digest tv) |};
    hash_test "sha512" Fips_test_hash
      {| hash_key := None;
         hash_key_size := 0;
         message := fips_message tv;
         message_size := sizeof (fips_message tv);
         digest := fips_sha512_digest tv;
         digest_size := sizeof (fips_sha512_digest tv) |};
    (* Tests for DRBG algorithms. *)
    drbg_test "drbg_nopr_hmac_sha256" Fips_test_drbg
      {| entropy := drbg_nopr_entropy;
         entropy_size := 48;
         pers := [];
         pers_size := 0;
         entpr_a := [];
         entpr_b := [];
         entpr_size := 0;
         add_a := drbg_nopr_add_a;
         add_b := drbg_nopr_add_b;
         add_size := 32;
         output := drbg_nopr_output;
         out_size := 128 |};
    drbg_test "drbg_pr_hmac_sha256" Fips_test_drbg
      {| entropy := drbg_pr_entropy;
         entropy_size := 48;
         pers := drbg_pr_pers;
         pers_size := 32;
         entpr_a := drbg_pr_entpr_a;
         entpr_b := drbg_pr_entpr_b;
         entpr_size := 32;
         add_a := drbg_pr_add_a;
         add_b := drbg_pr_add_b;
         add_size := 32;
         output := drbg_pr_output;
         out_size := 128 |} ].

(** ** The orchestrator *)

Definition fips140_run_selftests {W} (api : crypto_api W) (cfg : kconfig)
    (tv : generated_testvecs) : M W bool :=
  pr_info "running self-tests\n" [] ;;;
  run_selftests_from api cfg (fips140_selftests tv).

(** ** A small provider to run the tests on

    Every answer is fixed by a few parameters; the world counts the calls.
    Encryption and decryption are given as functions of the buffer. *)
Record toy := {
  toy_alloc : ptr_result;
  toy_flags : Z;
  toy_size : Z;
  toy_status : Z;
  toy_authsize_status : Z;
  toy_encrypt : bytes -> bytes;
  toy_decrypt : bytes -> bytes;
  toy_digest : bytes -> bytes;
  toy_generate : drbg_string -> bytes;
  toy_kmalloc : bool
}.

Definition toy_api (t : toy) : crypto_api nat :=
  fun c w =>
    (match c return answer c with
     | Crypto_alloc_cipher _ | Crypto_alloc_skcipher _ | Crypto_alloc_aead _
     | Crypto_alloc_shash _ | Crypto_alloc_rng _ => toy_alloc t
     | Cipher_alg _ | Skcipher_alg _ | Aead_alg _ | Shash_alg _ | Rng_alg _ =>
         {| cra_flags := toy_flags t; cra_name := "toy";
            cra_driver_name := "toy-generic" |}
     | Crypto_cipher_blocksize _ | Crypto_skcipher_ivsize _
     | Crypto_aead_ivsize _ | Crypto_shash_digestsize _
     | Crypto_aead_authsize _ => toy_size t
     | Crypto_cipher_setkey _ _ _ | Crypto_skcipher_setkey _ _ _
     | Crypto_aead_setkey _ _ _ | Crypto_shash_setkey _ _ _
     | Crypto_drbg_reset_test _ _ _ => toy_status t
     | Crypto_aead_setauthsize _ _ => toy_authsize_status t
     | Crypto_cipher_encrypt_one _ src | Aes_encrypt _ src => toy_encrypt t src
     | Crypto_cipher_decrypt_one _ src | Aes_decrypt _ src => toy_decrypt t src
     | Sha256 data _ => toy_digest t data
     | Aes_expandkey key _ => (toy_status t, key)
     | Skcipher_request_alloc _ | Aead_request_alloc _ => Some 1
     | Crypto_skcipher_encrypt _ msg _ _ => (toy_status t, toy_encrypt t msg)
     | Crypto_skcipher_decrypt _ msg _ _ => (toy_status t, toy_decrypt t msg)
     | Crypto_aead_encrypt _ sg _ _ _ =>
         (toy_status t, toy_encrypt t (fst (last sg ([], 0))))
     | Crypto_aead_decrypt _ sg _ _ _ =>
         (toy_status t, toy_decrypt t (fst (last sg ([], 0))))
     | Crypto_shash_tfm_digest _ data _ => (toy_status t, toy_digest t data)
     | Crypto_drbg_get_bytes_addtl_test _ _ addtl _
     | Crypto_drbg_get_bytes_addtl _ _ addtl => (toy_status t, toy_generate t addtl)
     | Crypto_free_cipher _ | Crypto_free_skcipher _ | Crypto_free_aead _
     | Crypto_free_shash _ | Crypto_free_rng _
     | Skcipher_request_free _ | Aead_request_free _ | Kfree _ => tt
     | Kmalloc _ => toy_kmalloc t
     end, S w).

(** A provider that works: synchronous, reporting [size], whose ciphers
    complement every byte and whose digests and random bytes are [out]. *)
Definition complement (b : bytes) : bytes := map (fun x => Z.lxor x 0xff) b.

Definition good_toy (size : Z) (out : bytes) : toy :=
  {| toy_alloc := PTR 7; toy_flags := 0; toy_size := size; toy_status := 0;
     toy_authsize_status := 0; toy_encrypt := complement;
     toy_decrypt := complement; toy_digest := fun _ => out;
     toy_generate := fun _ => out; toy_kmalloc := true |}.

Definition start : state nat := {| world := O; trace := [] |}.

(** The events a run added to the trace of the state it started from. *)
Definition events_since {W} (s s' : state W) : list event :=
  skipn (List.length (trace s)) (trace s').

(** The same configuration with nothing named for error injection. *)
Definition no_injection (cfg : kconfig) : kconfig :=
  {| CONFIG_CRYPTO_FIPS140_MOD_ERROR_INJECTION :=
       CONFIG_CRYPTO_FIPS140_MOD_ERROR_INJECTION cfg;
     fips140_broken_alg := None;
     CRYPTO_ALG_ASYNC := CRYPTO_ALG_ASYNC cfg;
     MAX_CIPHER_BLOCKSIZE := MAX_CIPHER_BLOCKSIZE cfg;
     AES_BLOCK_SIZE := AES_BLOCK_SIZE cfg;
     HASH_MAX_DIGESTSIZE := HASH_MAX_DIGESTSIZE cfg;
     SHA256_DIGEST_SIZE := SHA256_DIGEST_SIZE cfg |}.

(** ** The tag size of an AEAD, as a trace shows it *)

(** Whether, in a sequence of events, every AEAD encryption or decryption
    comes after the tag size has been set, and the tag size is only ever set
    to [tag]. *)
Fixpoint tag_size_set_before_use (tag : Z) (set : bool) (evs : list event)
    : bool :=
  match evs with
  | [] => true
  | Called (Crypto_aead_setauthsize _ authsize) :: rest =>
      (authsize =? tag) && tag_size_set_before_use tag true rest
  | Called (Crypto_aead_encrypt _ _ _ _ _) :: rest
  | Called (Crypto_aead_decrypt _ _ _ _ _) :: rest =>
      set && tag_size_set_before_use tag set rest
  | _ :: rest => tag_size_set_before_use tag set rest
  end.

(** Whether the tag size has been set to [tag] at all. *)
Definition tag_size_was_set (tag : Z) (evs : list event) : bool :=
  existsb (fun e =>
             match e with
             | Called (Crypto_aead_setauthsize _ authsize) => authsize =? tag
             | _ => false
             end) evs.

(** Both, for the events that a run from [s] added, the second when the run
    returned 0. *)
Definition tag_size_respected {W} (tag : Z) (s : state W)
    (run : Z * state W) : bool :=
  tag_size_set_before_use tag false (events_since s (snd run)) &&
  implb (fst run =? 0) (tag_size_was_set tag (events_since s (snd run))).

(** ** Error injection *)

(** The expected result and the length of the first comparison a test
    function makes. *)
Definition first_expected (test : fips_test) : bytes * Z :=
  match func test with
  | Fips_test_blockcipher | Fips_test_aes =>
      (bc_ciphertext (blockcipher test), block_size (blockcipher test))
  | Fips_test_skcipher =>
      (sk_ciphertext (skcipher test), sk_message_size (skcipher test))
  | Fips_test_aead =>
      (aead_ciphertext (aead test), ciphertext_size (aead test))
  | Fips_test_hash | Fips_test_sha256_library =>
      (digest (hash test), digest_size (hash test))
  | Fips_test_drbg => (output (drbg test), out_size (drbg test))
  end.

(** A test of the sha256() library function and its 32-byte digest, for the
    runs below. *)
Definition example_digest : bytes := repeat 0xab 32.

Definition example_sha256_test : fips_test :=
  hash_test "sha256" Fips_test_sha256_library
    {| hash_key := None; hash_key_size := 0;
       message := [1; 2; 3]; message_size := 3;
       digest := example_digest; digest_size := 32 |}.

(** ** The orchestrator *)

Definition logged {W} (e : event) (s : state W) : state W :=
  {| world := world s; trace := trace s ++ [e] |}.

Section OrchestratorRuns.

Context {W : Type}.
Variable api : crypto_api W.
Variable cfg : kconfig.

(** The state in which the test functions of [tests], called one after the
    other from [s], leave the world and the trace. *)
Fixpoint state_after (tests : list fips_test) (s : state W) : state W :=
  match tests with
  | [] => s
  | test :: rest => state_after rest (snd (call_func api cfg test s))
  end.

(** Whether each of them returns 0 when they are called that way. *)
Fixpoint all_pass (tests : list fips_test) (s : state W) : bool :=
  match tests with
  | [] => true
  | test :: rest =>
      (fst (call_func api cfg test s) =? 0) &&
      all_pass rest (snd (call_func api cfg test s))
  end.

End OrchestratorRuns.

(** Test vectors to run the registry on the small provider: every cipher
    text is the complement of the message, as the provider computes it. *)
Definition example_message : bytes := repeat 2 32.

Definition example_testvecs : generated_testvecs :=
  {| fips_aes_key := repeat 1 16;
     fips_message := example_message;
     fips_aes_iv := repeat 3 16;
     fips_aes_ecb_ciphertext := complement example_message;
     fips_aes_cbc_ciphertext := complement example_message;
     fips_aes_ctr_ciphertext := complement example_message;
     fips_aes_gcm_assoc := repeat 4 8;
     fips_aes_gcm_ciphertext := complement example_message ++ repeat 9 16;
     fips_aes_xts_key := repeat 5 32;
     fips_aes_xts_ciphertext := complement example_message;
     fips_sha1_digest := repeat 6 20;
     fips_sha256_digest := example_digest;
     fips_hmac_key := repeat 7 16;
     fips_hmac_sha256_digest := example_digest;
     fips_sha512_digest := repeat 8 64 |}.

(** How many instances a trace shows allocated. *)
Definition count_allocs (evs : list event) : nat :=
  List.length
    (filter (fun e =>
               match e with
               | Called (Crypto_alloc_cipher _) | Called (Crypto_alloc_skcipher _)
               | Called (Crypto_alloc_aead _) | Called (Crypto_alloc_shash _)
               | Called (Crypto_alloc_rng _) => true
               | _ => false
               end) evs).

(** ** The bounds on the fixed-size local buffers *)

(** For each test function, the sizes of the vector that are copied or
    written into a local array, with the declared size of that array. *)
Definition bounded_components (cfg : kconfig) (test : fips_test)
    : list (Z * Z) :=
  match func test with
  | Fips_test_blockcipher =>
      [(block_size (blockcipher test), MAX_CIPHER_BLOCKSIZE cfg)]
  | Fips_test_aes =>
      [(block_size (blockcipher test), AES_BLOCK_SIZE cfg);
       (block_size (blockcipher test), MAX_CIPHER_BLOCKSIZE cfg)]
  | Fips_test_skcipher => [(sk_iv_size (skcipher test), MAX_IV_SIZE)]
  | Fips_test_aead => [(aead_iv_size (aead test), MAX_IV_SIZE)]
  | Fips_test_hash => [(digest_size (hash test), HASH_MAX_DIGESTSIZE cfg)]
  | Fips_test_sha256_library =>
      [(digest_size (hash test), SHA256_DIGEST_SIZE cfg)]
  | Fips_test_drbg => []
  end.

(** ** What each test function asks of its instance *)

(** The calls of a test function on the instance it allocates: the
    allocation, the read of the algorithm's [struct crypto_alg], the query of
    the structural size that the vector declares (with that declared size and
    the complaint printed when they differ), and the releases made at the
    [out] label when the function leaves before it has allocated a request
    or a buffer. *)
Record instance_ops := {
  op_alloc : call;
  op_alg : handle -> call;
  op_size : option ((handle -> call) * Z * string);
  op_release : handle -> list call
}.

Definition instance_of (test : fips_test) : option instance_ops :=
  match func test with
  | Fips_test_blockcipher | Fips_test_aes =>
      Some {| op_alloc := Crypto_alloc_cipher (alg test);
              op_alg := Cipher_alg;
              op_size := Some (Crypto_cipher_blocksize,
                               block_size (blockcipher test),
                               "%s has wrong block size\n");
              op_release := fun tfm => [Crypto_free_cipher tfm] |}
  | Fips_test_skcipher =>
      Some {| op_alloc := Crypto_alloc_skcipher (alg test);
              op_alg := Skcipher_alg;
              op_size := Some (Crypto_skcipher_ivsize,
                               sk_iv_size (skcipher test),
                               "%s has wrong IV size\n");
              op_release := fun tfm =>
                [Kfree false; Skcipher_request_free None;
                 Crypto_free_skcipher tfm] |}
  | Fips_test_aead =>
      Some {| op_alloc := Crypto_alloc_aead (alg test);
              op_alg := Aead_alg;
              op_size := Some (Crypto_aead_ivsize,
                               aead_iv_size (aead test),
                               "%s has wrong IV size\n");
              op_release := fun tfm =>
                [Kfree false; Kfree false; Aead_request_free None;
                 Crypto_free_aead tfm] |}
  | Fips_test_hash =>
      Some {| op_alloc := Crypto_alloc_shash (alg test);
              op_alg := Shash_alg;
              op_size := Some (Crypto_shash_digestsize,
                               digest_size (hash test),
                               "%s has wrong digest size\n");
              op_release := fun tfm => [Crypto_free_shash tfm] |}
  | Fips_test_sha256_library => None
  | Fips_test_drbg =>
      Some {| op_alloc := Crypto_alloc_rng (alg test);
              op_alg := Rng_alg;
              op_size := None;
              op_release := fun rng => [Kfree false; Crypto_free_rng rng] |}
  end.

(** Whether the checks a test function makes on its vector before it
    allocates anything let the vector through. *)
Definition vector_accepted (cfg : kconfig) (test : fips_test) : bool :=
  match func test with
  | Fips_test_blockcipher =>
      negb (block_size (blockcipher test) >? MAX_CIPHER_BLOCKSIZE cfg)
  | Fips_test_aes =>
      (block_size (blockcipher test) =? AES_BLOCK_SIZE cfg) &&
      negb (block_size (blockcipher test) >? MAX_CIPHER_BLOCKSIZE cfg)
  | Fips_test_skcipher => negb (sk_iv_size (skcipher test) >? MAX_IV_SIZE)
  | Fips_test_aead =>
      negb (aead_iv_size (aead test) >? MAX_IV_SIZE) &&
      negb (ciphertext_size (aead test) <=? plaintext_size (aead test))
  | Fips_test_hash =>
      negb (digest_size (hash test) >? HASH_MAX_DIGESTSIZE cfg)
  | Fips_test_sha256_library =>
      digest_size (hash test) =? SHA256_DIGEST_SIZE cfg
  | Fips_test_drbg => true
  end.

(** An answer of the environment, read at the type the caller expects. *)
Definition as_ptr (c : call) : answer c -> option ptr_result :=
  match c with
  | Crypto_alloc_cipher _ | Crypto_alloc_skcipher _ | Crypto_alloc_aead _
  | Crypto_alloc_shash _ | Crypto_alloc_rng _ => fun a => Some a
  | _ => fun _ => None
  end.

Definition as_alg (c : call) : answer c -> option crypto_alg :=
  match c with
  | Cipher_alg _ | Skcipher_alg _ | Aead_alg _ | Shash_alg _ | Rng_alg _ =>
      fun a => Some a
  | _ => fun _ => None
  end.

Definition as_size (c : call) : answer c -> option Z :=
  match c with
  | Crypto_cipher_blocksize _ | Crypto_skcipher_ivsize _
  | Crypto_aead_ivsize _ | Crypto_shash_digestsize _ => fun a => Some a
  | _ => fun _ => None
  end.

(** The world after a sequence of calls whose answers are not looked at. *)
Fixpoint world_after {W} (api : crypto_api W) (cs : list call) (w : W) : W :=
  match cs with
  | [] => w
  | c :: rest => world_after api rest (snd (api c w))
  end.

Definition async_report (a : crypto_alg) : event :=
  Pr_err "unexpectedly got async implementation of %s (%s)\n"
    [PStr (cra_name a); PStr (cra_driver_name a)].

(** A provider whose instances are flagged asynchronous. *)
Definition async_toy : toy :=
  {| toy_alloc := PTR 7; toy_flags := 0x80; toy_size := 16; toy_status := 0;
     toy_authsize_status := 0; toy_encrypt := complement;
     toy_decrypt := complement; toy_digest := fun _ => [];
     toy_generate := fun _ => []; toy_kmalloc := true |}.

Definition example_cbc_test : fips_test :=
  skcipher_test "cbc(aes)" Fips_test_skcipher
    {| sk_key := repeat 1 16; sk_key_size := 16;
       sk_iv := repeat 3 16; sk_iv_size := 16;
       sk_plaintext := example_message;
       sk_ciphertext := complement example_message;
       sk_message_size := 32 |}.

Definition example_gcm_test : fips_test :=
  aead_test "gcm(aes)" Fips_test_aead
    {| aead_key := repeat 1 16; aead_key_size := 16;
       aead_iv := repeat 3 16; aead_iv_size := 12;
       assoc := repeat 4 8; assoc_size := 8;
       aead_plaintext := example_message; plaintext_size := 32;
       aead_ciphertext := complement example_message ++ repeat 9 16;
       ciphertext_size := 48 |}.

(** A provider that refuses every tag size. *)
Definition no_tag_toy : toy :=
  {| toy_alloc := PTR 7; toy_flags := 0; toy_size := 12; toy_status := 0;
     toy_authsize_status := - EINVAL; toy_encrypt := complement;
     toy_decrypt := complement; toy_digest := fun _ => [];
     toy_generate := fun _ => []; toy_kmalloc := true |}.

(** ** The DRBG test *)

(** The generate call that the DRBG test makes for an additional data
    string and an additional entropy string of its vector. *)
Definition generate_call (vec : drbg_testvec) (rng : handle)
    (add entpr : bytes) : call :=
  if negb (entpr_size vec =? 0) then
    Crypto_drbg_get_bytes_addtl_test rng (to_uint (out_size vec))
      (drbg_string_fill add (add_size vec))
      (drbg_string_fill entpr (entpr_size vec))
  else
    Crypto_drbg_get_bytes_addtl rng (to_uint (out_size vec))
      (drbg_string_fill add (add_size vec)).

Definition as_output (c : call) : answer c -> option (Z * bytes) :=
  match c with
  | Crypto_drbg_get_bytes_addtl_test _ _ _ _
  | Crypto_drbg_get_bytes_addtl _ _ _ => fun a => Some a
  | _ => fun _ => None
  end.

(** A DRBG whose output is the additional data it is given, and a vector
    that expects [add_b]: the output of the second generation. *)
Definition echo_toy : toy :=
  {| toy_alloc := PTR 7; toy_flags := 0; toy_size := 0; toy_status := 0;
     toy_authsize_status := 0; toy_encrypt := complement;
     toy_decrypt := complement; toy_digest := fun _ => [];
     toy_generate := ds_buf; toy_kmalloc := true |}.

Definition example_drbg_test : fips_test :=
  drbg_test "drbg_nopr_hmac_sha256" Fips_test_drbg
    {| entropy := [9; 9; 9]; entropy_size := 3; pers := []; pers_size := 0;
       entpr_a := []; entpr_b := []; entpr_size := 0;
       add_a := [1; 2; 3; 4]; add_b := [5; 6; 7; 8]; add_size := 4;
       output := [5; 6; 7; 8]; out_size := 4 |}.

(** ** What a run holds and gives back *)

(** What a call acquires, by its answer: an instance, a request or a
    buffer. *)
Definition acquired (c : call) : answer c -> Z :=
  match c with
  | Crypto_alloc_cipher _ | Crypto_alloc_skcipher _ | Crypto_alloc_aead _
  | Crypto_alloc_shash _ | Crypto_alloc_rng _ =>
      fun a => match a with PTR _ => 1 | ERR_PTR _ => 0 end
  | Skcipher_request_alloc _ | Aead_request_alloc _ =>
      fun a => match a with Some _ => 1 | None => 0 end
  | Kmalloc _ => fun a => if a : bool then 1 else 0
  | _ => fun _ => 0
  end.

(** What a call releases: [kfree(NULL)] and the release of a NULL request
    release nothing. *)
Definition released (c : call) : Z :=
  match c with
  | Crypto_free_cipher _ | Crypto_free_skcipher _ | Crypto_free_aead _
  | Crypto_free_shash _ | Crypto_free_rng _ => 1
  | Skcipher_request_free (Some _) | Aead_request_free (Some _) => 1
  | Kfree true => 1
  | _ => 0
  end.

(** The calls of a sequence of events made again from the world [w]: what is
    left acquired at the end, and the world at the end. *)
Fixpoint replay {W} (api : crypto_api W) (evs : list event) (w : W) : Z * W :=
  match evs with
  | [] => (0, w)
  | Called c :: rest =>
      let (a, w') := api c w in
      let (held, w'') := replay api rest w' in
      (acquired c a - released c + held, w'')
  | _ :: rest => replay api rest w
  end.

(** A run from [s] changed the world by the calls it recorded and by nothing
    else, it only added to the trace, and it gave back all it acquired. *)
Definition gives_back {W A} (api : crypto_api W) (s : state W)
    (run : A * state W) : Prop :=
  trace (snd run) = trace s ++ events_since s (snd run) /\
  replay api (events_since s (snd run)) (world s) = (0, world (snd run)).

(** ** Failures and their diagnostics *)

Definition is_diagnostic (e : event) : bool :=
  match e with
  | Pr_err _ _ | Warned => true
  | _ => false
  end.

(** The allocations of a request or of a buffer. *)
Definition asks_for_memory (e : event) : bool :=
  match e with
  | Called (Kmalloc _) | Called (Skcipher_request_alloc _)
  | Called (Aead_request_alloc _) => true
  | _ => false
  end.

(** A run from [s] either returned 0, or printed a diagnostic, or returned
    -ENOMEM after it asked for a request or a buffer. *)
Definition failure_explained {W} (s : state W) (run : Z * state W) : bool :=
  (fst run =? 0) ||
  existsb is_diagnostic (events_since s (snd run)) ||
  ((fst run =? - ENOMEM) && existsb asks_for_memory (events_since s (snd run))).

(** ** The order of the operations on an instance *)

(** What has to have been done before an operation. *)
Inductive milestone :=
| Cipher_keyed | Cipher_encrypted
| Aes_keyed | Aes_encrypted
| Skcipher_keyed | Skcipher_encrypted
| Aead_keyed | Aead_encrypted
| Rng_seeded.

Definition milestone_rank (m : milestone) : nat :=
  match m with
  | Cipher_keyed => 0 | Cipher_encrypted => 1
  | Aes_keyed => 2 | Aes_encrypted => 3
  | Skcipher_keyed => 4 | Skcipher_encrypted => 5
  | Aead_keyed => 6 | Aead_encrypted => 7
  | Rng_seeded => 8
  end%nat.

Definition reached (m : milestone) (done : list milestone) : bool :=
  existsb (fun m' => Nat.eqb (milestone_rank m) (milestone_rank m')) done.

(** The milestone a call reaches: a key is set or expanded, something is
    encrypted, the DRBG is reset. *)
Definition provides (c : call) : list milestone :=
  match c with
  | Crypto_cipher_setkey _ _ _ => [Cipher_keyed]
  | Crypto_cipher_encrypt_one _ _ => [Cipher_encrypted]
  | Aes_expandkey _ _ => [Aes_keyed]
  | Aes_encrypt _ _ => [Aes_encrypted]
  | Crypto_skcipher_setkey _ _ _ => [Skcipher_keyed]
  | Crypto_skcipher_encrypt _ _ _ _ => [Skcipher_encrypted]
  | Crypto_aead_setkey _ _ _ => [Aead_keyed]
  | Crypto_aead_encrypt _ _ _ _ _ => [Aead_encrypted]
  | Crypto_drbg_reset_test _ _ _ => [Rng_seeded]
  | _ => []
  end.

(** The milestones a call needs: encryption needs the key, decryption the
    key and an encryption, generation a reset. *)
Definition needs (c : call) : list milestone :=
  match c with
  | Crypto_cipher_encrypt_one _ _ => [Cipher_keyed]
  | Crypto_cipher_decrypt_one _ _ => [Cipher_keyed; Cipher_encrypted]
  | Aes_encrypt _ _ => [Aes_keyed]
  | Aes_decrypt _ _ => [Aes_keyed; Aes_encrypted]
  | Crypto_skcipher_encrypt _ _ _ _ => [Skcipher_keyed]
  | Crypto_skcipher_decrypt _ _ _ _ => [Skcipher_keyed; Skcipher_encrypted]
  | Crypto_aead_encrypt _ _ _ _ _ => [Aead_keyed]
  | Crypto_aead_decrypt _ _ _ _ _ => [Aead_keyed; Aead_encrypted]
  | Crypto_drbg_get_bytes_addtl_test _ _ _ _
  | Crypto_drbg_get_bytes_addtl _ _ _ => [Rng_seeded]
  | _ => []
  end.

Fixpoint in_order (done : list milestone) (evs : list event) : bool :=
  match evs with
  | [] => true
  | Called c :: rest =>
      forallb (fun m => reached m done) (needs c) &&
      in_order (provides c ++ done) rest
  | _ :: rest => in_order done rest
  end.

(** Every call that a run from [s] made had what it needs done before. *)
Definition prepared_before_use {W} (s : state W) (run : Z * state W) : bool :=
  in_order [] (events_since s (snd run)).

(** A run from [s] that returned 0 printed no diagnostic. *)
Definition quiet_on_success {W} (s : state W) (run : Z * state W) : bool :=
  implb (fst run =? 0)
    (negb (existsb is_diagnostic (events_since s (snd run)))).

(** ** A provider that the whole registry passes on

    Its instances are their own structural size, its ciphers complement
    every byte, its digests are bytes 0xab, and its DRBG answers the second
    additional data string of either registered vector with the output the
    vector expects. *)
Definition registry_api : crypto_api nat :=
  fun c w =>
    (match c return answer c with
     | Crypto_alloc_cipher _ => PTR 16
     | Crypto_alloc_skcipher name =>
         PTR (if String.eqb name "ecb(aes)" then 0 else 16)
     | Crypto_alloc_aead _ => PTR 12
     | Crypto_alloc_shash name =>
         PTR (if String.eqb name "sha1" then 20
              else if String.eqb name "sha512" then 64 else 32)
     | Crypto_alloc_rng _ => PTR 1
     | Cipher_alg _ | Skcipher_alg _ | Aead_alg _ | Shash_alg _ | Rng_alg _ =>
         {| cra_flags := 0; cra_name := "toy"; cra_driver_name := "toy-generic" |}
     | Crypto_cipher_blocksize tfm | Crypto_skcipher_ivsize tfm
     | Crypto_aead_ivsize tfm | Crypto_shash_digestsize tfm
     | Crypto_aead_authsize tfm => tfm
     | Crypto_cipher_setkey _ _ _ | Crypto_skcipher_setkey _ _ _
     | Crypto_aead_setkey _ _ _ | Crypto_shash_setkey _ _ _
     | Crypto_drbg_reset_test _ _ _ | Crypto_aead_setauthsize _ _ => 0
     | Crypto_cipher_encrypt_one _ src | Aes_encrypt _ src
     | Crypto_cipher_decrypt_one _ src | Aes_decrypt _ src => complement src
     | Sha256 _ _ => repeat 0xab 32
     | Aes_expandkey key _ => (0, key)
     | Skcipher_request_alloc _ | Aead_request_alloc _ => Some 1
     | Crypto_skcipher_encrypt _ msg _ _
     | Crypto_skcipher_decrypt _ msg _ _ => (0, complement msg)
     | Crypto_aead_encrypt _ sg _ _ _
     | Crypto_aead_decrypt _ sg _ _ _ =>
         (0, complement (fst (last sg ([], 0))))
     | Crypto_shash_tfm_digest tfm _ _ => (0, repeat 0xab (Z.to_nat tfm))
     | Crypto_drbg_get_bytes_addtl_test _ _ addtl _
     | Crypto_drbg_get_bytes_addtl _ _ addtl =>
         (0, match ds_buf addtl with
             | 0x88 :: _ => drbg_nopr_output
             | 0xac :: _ => drbg_pr_output
             | _ => []
             end)
     | Crypto_free_cipher _ | Crypto_free_skcipher _ | Crypto_free_aead _
     | Crypto_free_shash _ | Crypto_free_rng _
     | Skcipher_request_free _ | Aead_request_free _ | Kfree _ => tt
     | Kmalloc _ => true
     end, S w).

Definition passing_testvecs : generated_testvecs :=
  {| fips_aes_key := repeat 1 16;
     fips_message := example_message;
     fips_aes_iv := repeat 3 16;
     fips_aes_ecb_ciphertext := complement example_message;
     fips_aes_cbc_ciphertext := complement example_message;
     fips_aes_ctr_ciphertext := complement example_message;
     fips_aes_gcm_assoc := repeat 4 8;
     fips_aes_gcm_ciphertext := complement example_message ++ repeat 0xff 16;
     fips_aes_xts_key := repeat 5 32;
     fips_aes_xts_ciphertext := complement example_message;
     fips_sha1_digest := repeat 0xab 20;
     fips_sha256_digest := repeat 0xab 32;
     fips_hmac_key := repeat 7 16;
     fips_hmac_sha256_digest := repeat 0xab 32;
     fips_sha512_digest := repeat 0xab 64 |}.

(** A provider that has no algorithm at all (ENOENT). *)
Definition empty_toy : toy :=
  {| toy_alloc := ERR_PTR 2; toy_flags := 0; toy_size := 16; toy_status := 0;
     toy_authsize_status := 0; toy_encrypt := complement;
     toy_decrypt := complement; toy_digest := fun _ => [];
     toy_generate := fun _ => []; toy_kmalloc := true |}.

Definition example_block_test : fips_test :=
  blockcipher_test "aes" Fips_test_aes
    {| bc_key := repeat 1 16; bc_key_size := 16;
       bc_plaintext := example_message;
       bc_ciphertext := complement example_message;
       block_size := 16 |}.

(** "gcm(aes)" with the ciphertext and tag that the small provider
    computes: the complement of the message and of the 16 zeroed bytes after
    it. *)
Definition example_gcm_pass_test : fips_test :=
  aead_test "gcm(aes)" Fips_test_aead
    {| aead_key := repeat 1 16; aead_key_size := 16;
       aead_iv := repeat 3 16; aead_iv_size := 12;
       assoc := repeat 4 8; assoc_size := 8;
       aead_plaintext := example_message; plaintext_size := 32;
       aead_ciphertext := complement example_message ++ repeat 0xff 16;
       ciphertext_size := 48 |}.

Definition example_hmac_test : fips_test :=
  hash_test "hmac(sha256)" Fips_test_hash
    {| hash_key := Some (repeat 7 16); hash_key_size := 16;
       message := example_message; message_size := 32;
       digest := example_digest; digest_size := 32 |}.

(** A provider out of memory. *)
Definition no_memory_toy : toy :=
  {| toy_alloc := PTR 7; toy_flags := 0; toy_size := 16; toy_status := 0;
     toy_authsize_status := 0; toy_encrypt := complement;
     toy_decrypt := complement; toy_digest := fun _ => [];
     toy_generate := fun _ => []; toy_kmalloc := false |}.

(** Whether an event is the query of the tag size of an AEAD instance. *)
Definition reads_tag_size (e : event) : bool :=
  match e with
  | Called (Crypto_aead_authsize _) => true
  | _ => false
  end.

(** A provider of AEAD instances whose world is the tag size that the
    instance reports: 16 when it is allocated, then whatever
    [crypto_aead_setauthsize] last set.  Its other answers are those of the
    working provider. *)
Definition tag_api : crypto_api Z :=
  fun c w =>
    match c return answer c * Z with
    | Crypto_alloc_aead _ => (PTR 7, 16)
    | Crypto_aead_setauthsize _ authsize => (0, authsize)
    | Crypto_aead_authsize _ => (w, w)
    | c' => (fst (toy_api (good_toy 12 []) c' O), w)
    end.

(** "gcm(aes)" with a tag of 12 bytes. *)
Definition short_tag_gcm_test : fips_test :=
  aead_test "gcm(aes)" Fips_test_aead
    {| aead_key := repeat 1 16; aead_key_size := 16;
       aead_iv := repeat 3 16; aead_iv_size := 12;
       assoc := repeat 4 8; assoc_size := 8;
       aead_plaintext := example_message; plaintext_size := 32;
       aead_ciphertext := complement example_message ++ repeat 0xff 12;
       ciphertext_size := 44 |}.


(** The vector of [example_drbg_test] with the output of the first
    generation as its expected output. *)
Definition first_output_drbg_test : fips_test :=
  drbg_test "drbg_nopr_hmac_sha256" Fips_test_drbg
    {| entropy := [9; 9; 9]; entropy_size := 3; pers := []; pers_size := 0;
       entpr_a := []; entpr_b := []; entpr_size := 0;
       add_a := [1; 2; 3; 4]; add_b := [5; 6; 7; 8]; add_size := 4;
       output := [1; 2; 3; 4]; out_size := 4 |}.

(** * Proofs *)

(** ** Facts about the C library functions *)

Lemma memcmp_zero_iff (s1 s2 : bytes) (n : nat) :
  memcmp s1 s2 n = 0 <-> firstn n s1 = firstn n s2.
Proof.
  revert s1 s2; induction n as [|n IH]; intros s1 s2; simpl.
  - split; reflexivity.
  - destruct s1 as [|a s1], s2 as [|b s2]; simpl.
    + split; reflexivity.
    + split; [lia | discriminate].
    + split; [lia | discriminate].
    + destruct (Z.eqb_spec a b) as [->|Hab].
      * rewrite IH. split; [intros ->; reflexivity | intros H; now inversion H].
      * split; [lia | intros H; inversion H; contradiction].
Qed.

Lemma strcmp_zero_iff (a b : string) : strcmp a b = 0 <-> a = b.
Proof.
  unfold strcmp. destruct (String.compare a b) eqn:E.
  - apply String.compare_eq_iff in E. tauto.
  - split; [discriminate | intros ->].
    pose proof (String.compare_antisym b b) as A. rewrite E in A. discriminate.
  - split; [discriminate | intros ->].
    pose proof (String.compare_antisym b b) as A. rewrite E in A. discriminate.
Qed.

Lemma lxor_ff_changes (b : Z) : Z.lxor b 0xff <> b.
Proof.
  intros H. assert (E : Z.lxor b (Z.lxor b 0xff) = Z.lxor b b) by (f_equal; exact H).
  rewrite Z.lxor_nilpotent, <- Z.lxor_assoc, Z.lxor_nilpotent, Z.lxor_0_l in E.
  discriminate.
Qed.

(** Corrupting a buffer that matched makes a comparison of at least one byte
    fail. *)
Lemma memcmp_corrupted (result expected : bytes) (n : nat) :
  (0 < n)%nat -> expected <> [] -> memcmp result expected n = 0 ->
  memcmp (corrupt_first_byte result) expected n <> 0.
Proof.
  intros Hn Hne Heq. destruct n as [|n]; [lia|].
  destruct expected as [|b e]; [congruence|].
  destruct result as [|a r]; simpl in *; [lia|].
  destruct (Z.eqb_spec a b) as [->|Hab].
  - destruct (Z.eqb_spec (Z.lxor b 255) b) as [E|E].
    + now apply lxor_ff_changes in E.
    + lia.
  - lia.
Qed.

Lemma injection_applies_spec (cfg : kconfig) (test : fips_test) :
  injection_applies cfg test = true <->
  CONFIG_CRYPTO_FIPS140_MOD_ERROR_INJECTION cfg = true /\
  fips140_broken_alg cfg = Some (alg test).
Proof.
  unfold injection_applies.
  destruct (CONFIG_CRYPTO_FIPS140_MOD_ERROR_INJECTION cfg); simpl.
  - destruct (fips140_broken_alg cfg) as [b|].
    + rewrite Z.eqb_eq, strcmp_zero_iff. split.
      * intros ->. auto.
      * intros [_ H]. now inversion H.
    + split; [discriminate | intros [_ H]; discriminate].
  - split; [discriminate | intros [H _]; discriminate].
Qed.

Lemma injection_applies_no_injection (cfg : kconfig) (test : fips_test) :
  injection_applies (no_injection cfg) test = false.
Proof. unfold injection_applies; simpl. apply andb_false_r. Qed.

Lemma events_since_mk {W} (w w' : W) (tr l : list event) :
  events_since {| world := w; trace := tr |} {| world := w'; trace := tr ++ l |}
  = l.
Proof.
  unfold events_since; simpl. rewrite skipn_app, skipn_all, Nat.sub_diag.
  reflexivity.
Qed.

Lemma events_since_app {W} (s : state W) (w : W) (l : list event) :
  events_since s {| world := w; trace := trace s ++ l |} = l.
Proof.
  unfold events_since; simpl. rewrite skipn_app, skipn_all, Nat.sub_diag.
  reflexivity.
Qed.

(** ** The comparator *)

(** C2: when error injection does not apply to the test's algorithm, the
    comparator returns 0 exactly when the first [result_size] bytes of the
    result equal those of the expected result, and -EBADMSG exactly when they
    differ; in the latter case it has printed one diagnostic that carries the
    algorithm name and the operation, and in both cases the result buffer is
    left as it was. *)
Theorem fips_check_result_compares {W} (cfg : kconfig) (test : fips_test)
    (result expected_result : bytes) (result_size : Z) (operation : string)
    (s : state W) :
  injection_applies cfg test = false ->
  let n := Z.to_nat result_size in
  let r := fips_check_result cfg test result expected_result result_size
             operation s in
  (fst (fst r) = 0 <-> firstn n result = firstn n expected_result) /\
  (fst (fst r) = - EBADMSG <-> firstn n result <> firstn n expected_result) /\
  (firstn n result = firstn n expected_result -> r = ((0, result), s)) /\
  (firstn n result <> firstn n expected_result ->
   r = ((- EBADMSG, result),
        {| world := world s;
           trace := trace s ++
             [Pr_err "wrong result from %s %s\n"
                [PStr (alg test); PStr operation]] |})).
Proof.
  intros Hinj n r. subst r. unfold fips_check_result. rewrite Hinj.
  fold n. pose proof (memcmp_zero_iff result expected_result n) as Hm.
  destruct (Z.eqb_spec (memcmp result expected_result n) 0) as [E|E]; simpl.
  - assert (Hf : firstn n result = firstn n expected_result) by now apply Hm.
    repeat split; intros; try reflexivity; try assumption; try contradiction.
    discriminate.
  - assert (Hf : firstn n result <> firstn n expected_result)
      by (intros Hf; apply E, Hm, Hf).
    unfold EBADMSG.
    repeat split; intros; try reflexivity; try assumption; try contradiction;
      try discriminate.
Qed.

(** The comparator on a matching and on a differing buffer, with injection
    compiled in but naming another algorithm. *)
Lemma fips_check_result_compares_witness :
  let cfg := linux_config true (Some "sha1") in
  let test := hash_test "sha256" Fips_test_sha256_library no_hash in
  injection_applies cfg test = false /\
  fips_check_result cfg test [1; 2; 3] [1; 2; 4] 2 "digest" start
    = ((0, [1; 2; 3]), start) /\
  fst (fst (fips_check_result cfg test [1; 2; 3] [1; 2; 4] 3 "digest" start))
    = - EBADMSG.
Proof.
  intros cfg test.
  assert (H : injection_applies cfg test = false) by reflexivity.
  split; [exact H|].
  split.
  - apply (fips_check_result_compares cfg test [1; 2; 3] [1; 2; 4] 2 "digest"
             start H). reflexivity.
  - apply (fips_check_result_compares cfg test [1; 2; 3] [1; 2; 4] 3 "digest"
             start H). simpl. discriminate.
Defined.

(** C10: a comparison of zero bytes succeeds whatever the two buffers hold
    and whatever the error-injection setting names; it prints nothing. *)
Theorem fips_check_result_zero_size {W} (cfg : kconfig) (test : fips_test)
    (result expected_result : bytes) (operation : string) (s : state W) :
  fst (fst (fips_check_result cfg test result expected_result 0 operation s)) = 0
  /\ snd (fips_check_result cfg test result expected_result 0 operation s) = s.
Proof.
  unfold fips_check_result. simpl. split; reflexivity.
Qed.

(** ** Symbolic execution of the test functions

    A run is followed one decision at a time: the next answer of the
    environment, the next comparison, the next branch on a status. *)

Ltac unfold_monad :=
  unfold WARN_ON, kmemdup, kzalloc, kfree, fips_validate_alg, drbg_generate,
    on_success, pr_err, pr_info, pr_emerg in *;
  unfold do_call, log, bind, ret in *;
  cbv [EINVAL EBADMSG ENOMEM PTR_ERR] in *.

Ltac unfold_tests :=
  unfold call_func, fips_test_aes, fips_test_blockcipher, fips_test_skcipher,
    fips_test_aead, fips_test_hash, fips_test_sha256_library, fips_test_drbg,
    fips_check_result in *.

Ltac head t :=
  lazymatch t with
  | fst ?x => head x
  | snd ?x => head x
  | negb ?x => head x
  | events_since _ ?x => head x
  | existsb _ ?x => head x
  | tag_size_respected _ _ ?x => head x
  | match ?x with _ => _ end => head x
  | (match ?x with _ => _ end) _ => head x
  | _ => t
  end.

Ltac tidy :=
  cbn beta iota delta [fst snd world trace negb andb answer Z.eqb Z.opp] in *.

Ltac destruct_head h :=
  lazymatch h with
  | Z.eqb (memcmp (corrupt_first_byte _) _ _) 0 => fail
  | Z.eqb ?x ?y => destruct (Z.eqb_spec x y)
  | Z.gtb _ _ => destruct h eqn:?
  | Z.leb _ _ => destruct h eqn:?
  | hash_key _ => destruct h eqn:?
  | _ ?c _ => lazymatch type of c with call => destruct h eqn:? end
  | _ => is_var h; destruct h
  end; tidy.

Ltac step :=
  lazymatch goal with
  | |- ?l = _ => let h := head l in destruct_head h
  end.

Ltac step_in H :=
  lazymatch type of H with
  | ?l = _ => let h := head l in destruct_head h
  end.

Ltac dead H := solve [exfalso; first [discriminate H | congruence | lia]].

(** At the first comparison of an injected run whose uninjected twin [H]
    returns 0: the twin's comparison succeeded, so the injected one fails. *)
Ltac at_check H Hn Hne :=
  lazymatch goal with
  | |- context [memcmp (corrupt_first_byte ?r) ?e ?n =? 0] =>
      let Hm := fresh "Hm" in
      let E := fresh "E" in
      destruct (Z.eqb_spec (memcmp r e n) 0) as [Hm|Hm]; tidy;
      [ clear H;
        destruct (Z.eqb_spec (memcmp (corrupt_first_byte r) e n) 0) as [E|E];
        [ exfalso; revert E; apply memcmp_corrupted;
          [lia | exact Hne | exact Hm]
        | tidy; repeat step; reflexivity ]
      | repeat step_in H; dead H ]
  end.

(** ** Error injection *)

(** C3, as amended: when error injection is compiled in and names the
    algorithm of a test that passes without injection, and the first result
    the test compares is at least one byte long, the injected run fails with
    -EBADMSG. *)
Theorem injection_fails_passing_test {W} (api : crypto_api W) (cfg : kconfig)
    (test : fips_test) (s : state W) :
  injection_applies cfg test = true ->
  0 < snd (first_expected test) ->
  fst (first_expected test) <> [] ->
  fst (call_func api (no_injection cfg) test s) = 0 ->
  fst (call_func api cfg test s) = - EBADMSG.
Proof.
  intros Hinj Hn Hne H0.
  pose proof (injection_applies_no_injection cfg test) as Hinj0.
  unfold first_expected in Hn, Hne.
  unfold_tests. rewrite Hinj0 in H0. rewrite Hinj.
  unfold_monad.
  cbn [MAX_CIPHER_BLOCKSIZE CRYPTO_ALG_ASYNC AES_BLOCK_SIZE HASH_MAX_DIGESTSIZE
       SHA256_DIGEST_SIZE no_injection] in *.
  destruct s as [w tr].
  destruct (func test); tidy; repeat step;
    try dead H0; at_check H0 Hn Hne.
Qed.

(** The example test passes on the working provider and fails once error
    injection names "sha256". *)
Lemma injection_fails_passing_test_witness :
  let cfg := linux_config true (Some "sha256") in
  let api := toy_api (good_toy 32 example_digest) in
  fst (call_func api (no_injection cfg) example_sha256_test start) = 0 /\
  fst (call_func api cfg example_sha256_test start) = - EBADMSG.
Proof.
  intros cfg api.
  assert (H0 : fst (call_func api (no_injection cfg) example_sha256_test start)
               = 0) by reflexivity.
  split; [exact H0|].
  apply (injection_fails_passing_test api cfg example_sha256_test start);
    [reflexivity | reflexivity | discriminate | exact H0].
Defined.

(** C3 as stated does not hold: with error injection naming "sha256", a
    sha256() whose digest is wrong in exactly the bits that the injection
    flips passes the test. *)
Lemma injection_can_pass :
  let cfg := linux_config true (Some "sha256") in
  let api := toy_api (good_toy 32 (corrupt_first_byte example_digest)) in
  injection_applies cfg example_sha256_test = true /\
  fst (call_func api (no_injection cfg) example_sha256_test start) = - EBADMSG /\
  fst (call_func api cfg example_sha256_test start) = 0.
Proof. repeat split. Qed.

(** C4: when the error-injection setting names another algorithm than the
    test's, the whole run of the test function (status, world and trace) is
    the run with nothing named, and so is every call of the comparator,
    which leaves the result bytes as they were. *)
Theorem other_algorithm_unaffected {W} (api : crypto_api W) (cfg : kconfig)
    (test : fips_test) (broken : string) (s : state W) :
  fips140_broken_alg cfg = Some broken ->
  alg test <> broken ->
  call_func api cfg test s = call_func api (no_injection cfg) test s /\
  forall result expected_result result_size operation (s' : state W),
    fips_check_result cfg test result expected_result result_size operation s'
    = fips_check_result (no_injection cfg) test result expected_result
        result_size operation s' /\
    snd (fst (fips_check_result cfg test result expected_result result_size
                operation s')) = result.
Proof.
  intros Hb Hne.
  assert (Hinj : injection_applies cfg test = false).
  { destruct (injection_applies cfg test) eqn:E; [|reflexivity].
    apply injection_applies_spec in E. destruct E as [_ E]. congruence. }
  pose proof (injection_applies_no_injection cfg test) as Hinj0.
  split.
  - unfold_tests. rewrite Hinj, Hinj0. destruct (func test); reflexivity.
  - intros. unfold fips_check_result. rewrite Hinj, Hinj0.
    split; [reflexivity|].
    destruct (negb _); reflexivity.
Qed.

(** The example test with "sha1" named for injection. *)
Lemma other_algorithm_unaffected_witness :
  let cfg := linux_config true (Some "sha1") in
  let api := toy_api (good_toy 32 example_digest) in
  call_func api cfg example_sha256_test start
  = call_func api (no_injection cfg) example_sha256_test start.
Proof.
  intros cfg api.
  apply (other_algorithm_unaffected api cfg example_sha256_test "sha1" start
           eq_refl).
  discriminate.
Defined.

(** ** The orchestrator *)

Section OrchestratorFacts.

Context {W : Type}.
Variable api : crypto_api W.
Variable cfg : kconfig.

Lemma run_selftests_from_cons (test : fips_test) (rest : list fips_test)
    (s : state W) :
  run_selftests_from api cfg (test :: rest) s
  = if fst (call_func api cfg test s) =? 0
    then run_selftests_from api cfg rest (snd (call_func api cfg test s))
    else (false,
          logged (Pr_emerg "self-tests failed for algorithm %s: %d\n"
                    [PStr (alg test); PInt (fst (call_func api cfg test s))])
            (snd (call_func api cfg test s))).
Proof.
  simpl. unfold bind. destruct (call_func api cfg test s) as [err s1]. simpl.
  destruct (err =? 0); reflexivity.
Qed.

Lemma run_selftests_from_passes (tests : list fips_test) (s : state W) :
  fst (run_selftests_from api cfg tests s) = all_pass api cfg tests s /\
  (all_pass api cfg tests s = true ->
   snd (run_selftests_from api cfg tests s)
   = logged (Pr_info "all self-tests passed\n" []) (state_after api cfg tests s)).
Proof.
  revert s. induction tests as [|test rest IH]; intros s.
  - split; reflexivity.
  - rewrite run_selftests_from_cons. simpl.
    destruct (fst (call_func api cfg test s) =? 0); simpl.
    + apply IH.
    + split; [reflexivity | discriminate].
Qed.

Lemma run_selftests_from_stops (pre post : list fips_test) (test : fips_test)
    (s : state W) :
  all_pass api cfg pre s = true ->
  fst (call_func api cfg test (state_after api cfg pre s)) <> 0 ->
  run_selftests_from api cfg (pre ++ test :: post) s
  = (false,
     logged (Pr_emerg "self-tests failed for algorithm %s: %d\n"
               [PStr (alg test);
                PInt (fst (call_func api cfg test (state_after api cfg pre s)))])
       (snd (call_func api cfg test (state_after api cfg pre s)))).
Proof.
  revert s. induction pre as [|t pre IH]; intros s Hpass Hfail.
  - simpl app. rewrite run_selftests_from_cons. simpl in Hfail.
    destruct (Z.eqb_spec (fst (call_func api cfg test s)) 0) as [E|E];
      [contradiction | reflexivity].
  - simpl app. rewrite run_selftests_from_cons. simpl in Hpass, Hfail.
    apply andb_true_iff in Hpass. destruct Hpass as [H1 H2].
    rewrite H1. apply IH; assumption.
Qed.

End OrchestratorFacts.

(** C1: [fips140_run_selftests] calls the test functions of the registry in
    the order of the registry, each from the state the previous one left.
    It returns true exactly when each of them returns 0, and then the run
    ends after the last of them.  When the one at position [k + 1] is the
    first to return a nonzero status, it returns false and the run ends with
    that call and the report of the failure: no later test function is
    called. *)
Theorem fips140_run_selftests_stops_at_first_failure {W} (api : crypto_api W)
    (cfg : kconfig) (tv : generated_testvecs) (s : state W) :
  let s0 := logged (Pr_info "running self-tests\n" []) s in
  let run := fips140_run_selftests api cfg tv s in
  fst run = all_pass api cfg (fips140_selftests tv) s0 /\
  (all_pass api cfg (fips140_selftests tv) s0 = true ->
   snd run = logged (Pr_info "all self-tests passed\n" [])
               (state_after api cfg (fips140_selftests tv) s0)) /\
  (forall (k : nat) (test : fips_test),
     nth_error (fips140_selftests tv) k = Some test ->
     let before := state_after api cfg (firstn k (fips140_selftests tv)) s0 in
     all_pass api cfg (firstn k (fips140_selftests tv)) s0 = true ->
     fst (call_func api cfg test before) <> 0 ->
     run = (false,
            logged (Pr_emerg "self-tests failed for algorithm %s: %d\n"
                      [PStr (alg test);
                       PInt (fst (call_func api cfg test before))])
              (snd (call_func api cfg test before)))).
Proof.
  intros s0 run. subst run.
  change (fips140_run_selftests api cfg tv s)
    with (run_selftests_from api cfg (fips140_selftests tv) s0).
  pose proof (run_selftests_from_passes api cfg (fips140_selftests tv) s0)
    as [Hfst Hsnd].
  split; [exact Hfst|]. split; [exact Hsnd|].
  intros k test Hk before Hpass Hfail.
  destruct (nth_error_split _ _ Hk) as (pre & post & Heq & Hlen).
  assert (Hpre : firstn k (fips140_selftests tv) = pre).
  { rewrite Heq, <- Hlen, firstn_app, Nat.sub_diag, firstn_all. simpl.
    apply app_nil_r. }
  subst before. rewrite Hpre in *. rewrite Heq.
  apply run_selftests_from_stops; assumption.
Qed.

(** On a provider whose instances all report the size 16, the fourth test,
    "ecb(aes)" with its IV size of 0, is the first to fail: the run returns
    false and has allocated four instances, none for the eight tests after
    it. *)
Lemma fips140_run_selftests_stops_at_first_failure_witness :
  let api := toy_api (good_toy 16 example_digest) in
  let cfg := linux_config false None in
  let run := fips140_run_selftests api cfg example_testvecs start in
  fst run = false /\ count_allocs (trace (snd run)) = 4%nat.
Proof.
  intros api cfg run.
  destruct (fips140_run_selftests_stops_at_first_failure api cfg
              example_testvecs start) as (_ & _ & H).
  assert (Hk : nth_error (fips140_selftests example_testvecs) 3
               = Some (skcipher_test "ecb(aes)" Fips_test_skcipher
                         {| sk_key := repeat 1 16;
                            sk_key_size := 16;
                            sk_iv := [];
                            sk_iv_size := 0;
                            sk_plaintext := example_message;
                            sk_ciphertext := complement example_message;
                            sk_message_size := 32 |})) by reflexivity.
  specialize (H _ _ Hk eq_refl).
  assert (E : run = fips140_run_selftests api cfg example_testvecs start)
    by reflexivity.
  rewrite H in E by discriminate.
  rewrite E. split; reflexivity.
Defined.

(** ** The bounds on the fixed-size local buffers *)

(** C9: a test function whose vector has a size that exceeds the local
    array it is meant for returns -EINVAL having done nothing but warn: the
    world is untouched and the trace has no call into the provider.  Hence a
    run that does call into the provider has all those sizes within the
    arrays. *)
Theorem oversized_vector_rejected_first {W} (api : crypto_api W)
    (cfg : kconfig) (test : fips_test) (s : state W) :
  (forall size cap : Z,
     In (size, cap) (bounded_components cfg test) ->
     cap < size ->
     call_func api cfg test s = (- EINVAL, logged Warned s)) /\
  ((exists c, In (Called c) (events_since s (snd (call_func api cfg test s)))) ->
   forall size cap : Z,
     In (size, cap) (bounded_components cfg test) -> size <= cap).
Proof.
  assert (H : forall size cap : Z,
     In (size, cap) (bounded_components cfg test) ->
     cap < size ->
     call_func api cfg test s = (- EINVAL, logged Warned s)).
  { intros size cap Hin Hlt. unfold bounded_components in Hin.
    unfold_tests. unfold logged. unfold_monad.
    destruct (func test); simpl in Hin;
      repeat (destruct Hin as [Hin|Hin]; [inversion Hin; subst; clear Hin|]);
      try contradiction; tidy.
    - replace (block_size (blockcipher test) >? MAX_CIPHER_BLOCKSIZE cfg)
        with true by (symmetry; apply Z.gtb_lt; lia).
      reflexivity.
    - destruct (Z.eqb_spec (block_size (blockcipher test)) (AES_BLOCK_SIZE cfg));
        [lia | reflexivity].
    - destruct (Z.eqb_spec (block_size (blockcipher test)) (AES_BLOCK_SIZE cfg));
        [|reflexivity].
      replace (block_size (blockcipher test) >? MAX_CIPHER_BLOCKSIZE cfg)
        with true by (symmetry; apply Z.gtb_lt; lia).
      reflexivity.
    - replace (sk_iv_size (skcipher test) >? MAX_IV_SIZE)
        with true by (symmetry; apply Z.gtb_lt; lia).
      reflexivity.
    - replace (aead_iv_size (aead test) >? MAX_IV_SIZE)
        with true by (symmetry; apply Z.gtb_lt; lia).
      reflexivity.
    - replace (digest_size (hash test) >? HASH_MAX_DIGESTSIZE cfg)
        with true by (symmetry; apply Z.gtb_lt; lia).
      reflexivity.
    - destruct (Z.eqb_spec (digest_size (hash test)) (SHA256_DIGEST_SIZE cfg));
        [lia | reflexivity]. }
  split; [exact H|].
  intros [c Hc] size cap Hin.
  destruct (Z.le_gt_cases size cap) as [Hle|Hgt]; [exact Hle|exfalso].
  rewrite (H size cap Hin Hgt) in Hc. unfold logged in Hc. simpl in Hc.
  rewrite events_since_app in Hc. destruct Hc as [Hc|[]]. discriminate.
Qed.

(** A block cipher vector of 17 bytes per block is refused before the
    provider is asked for anything. *)
Lemma oversized_vector_rejected_first_witness :
  let test := blockcipher_test "aes" Fips_test_blockcipher
                {| bc_key := [1]; bc_key_size := 1; bc_plaintext := [];
                   bc_ciphertext := []; block_size := 17 |} in
  call_func (toy_api (good_toy 16 [])) (linux_config false None) test start
  = (- EINVAL, logged Warned start).
Proof.
  intros test.
  apply (proj1 (oversized_vector_rejected_first (toy_api (good_toy 16 []))
                  (linux_config false None) test start) 17 16).
  - left. reflexivity.
  - reflexivity.
Defined.

(** Hypotheses on answers and guards, brought to the form the execution
    meets them in. *)
Ltac resolve :=
  repeat match goal with
    | H : Some _ = Some _ |- _ => injection H as H; try subst
    | H : PTR _ = PTR _ |- _ => injection H as H; try subst
    | H : (_, _) = (_, _) |- _ => injection H; clear H; intros; try subst
    | H : _ && _ = true |- _ => apply andb_true_iff in H; destruct H
    | H : negb _ = true |- _ => apply negb_true_iff in H
    | H : (_ =? _) = true |- _ => apply Z.eqb_eq in H
    | H : (_ =? _) = false |- _ => apply Z.eqb_neq in H
    end; tidy.

Ltac run_path :=
  repeat (step; resolve; try solve [exfalso; first [congruence | lia]]).

(** ** The implementation validator *)

(** C5: [fips_validate_alg] returns -EINVAL, with a diagnostic, when the
    flags of the algorithm have a bit of CRYPTO_ALG_ASYNC, and 0 otherwise.
    Every test function that allocates an instance validates it first: when
    the instance is flagged, the function returns -EINVAL, and all it has
    asked of the environment is the allocation, the algorithm of the
    instance and the release; no size has been queried, no key set and
    nothing encrypted, digested or generated. *)
Theorem async_instance_rejected {W} (api : crypto_api W) (cfg : kconfig)
    (test : fips_test) (s : state W) (ops : instance_ops) (tfm : handle)
    (a : crypto_alg) :
  (forall (a' : crypto_alg) (s' : state W),
     fips_validate_alg cfg a' s'
     = if Z.land (cra_flags a') (CRYPTO_ALG_ASYNC cfg) =? 0
       then (0, s')
       else (- EINVAL, logged (async_report a') s')) /\
  (vector_accepted cfg test = true ->
   instance_of test = Some ops ->
   as_ptr _ (fst (api (op_alloc ops) (world s))) = Some (PTR tfm) ->
   let w1 := snd (api (op_alloc ops) (world s)) in
   as_alg _ (fst (api (op_alg ops tfm) w1)) = Some a ->
   Z.land (cra_flags a) (CRYPTO_ALG_ASYNC cfg) <> 0 ->
   call_func api cfg test s
   = (- EINVAL,
      {| world := world_after api (op_release ops tfm)
                    (snd (api (op_alg ops tfm) w1));
         trace := trace s ++
                  Called (op_alloc ops) :: Called (op_alg ops tfm) ::
                  async_report a :: map Called (op_release ops tfm) |})).
Proof.
  split.
  - intros a' s'. unfold fips_validate_alg, logged, async_report.
    destruct (Z.land (cra_flags a') (CRYPTO_ALG_ASYNC cfg) =? 0); reflexivity.
  - intros Hacc Hops Hptr w1 Halg Hasync. subst w1.
    unfold instance_of, vector_accepted, async_report in *.
    unfold_tests. unfold_monad. destruct s as [w tr].
    destruct (func test); try discriminate;
      injection Hops as <-;
      cbn [op_alloc op_alg op_release as_ptr as_alg world_after map] in *;
      tidy; resolve; run_path;
      rewrite <- ?app_assoc; reflexivity.
Qed.

(** The "cbc(aes)" test on an asynchronous instance. *)
Lemma async_instance_rejected_witness :
  call_func (toy_api async_toy) (linux_config false None) example_cbc_test start
  = (- EINVAL,
     {| world := 5%nat;
        trace := [Called (Crypto_alloc_skcipher "cbc(aes)");
                  Called (Skcipher_alg 7);
                  Pr_err "unexpectedly got async implementation of %s (%s)\n"
                    [PStr "toy"; PStr "toy-generic"];
                  Called (Kfree false);
                  Called (Skcipher_request_free None);
                  Called (Crypto_free_skcipher 7)] |}).
Proof.
  apply (proj2 (async_instance_rejected (toy_api async_toy)
                  (linux_config false None) example_cbc_test start
                  {| op_alloc := Crypto_alloc_skcipher "cbc(aes)";
                     op_alg := Skcipher_alg;
                     op_size := Some (Crypto_skcipher_ivsize, 16,
                                      "%s has wrong IV size\n");
                     op_release := fun tfm =>
                       [Kfree false; Skcipher_request_free None;
                        Crypto_free_skcipher tfm] |}
                  7
                  {| cra_flags := 0x80; cra_name := "toy";
                     cra_driver_name := "toy-generic" |}));
    try reflexivity.
  discriminate.
Defined.

(** ** Structural sizes *)

(** C6, as amended: when the instance of a test function is synchronous but
    reports a block size, IV size or digest size other than the one the
    vector declares, the function returns -EINVAL after the complaint, and
    has not set a key nor encrypted or digested anything.  The tag size that
    an AEAD instance reports is never read, by any test function: the AEAD
    test sets the tag size of the vector, and when the instance refuses it
    the test returns that error, and has not encrypted anything either. *)
Theorem size_mismatch_rejected {W} (api : crypto_api W) (cfg : kconfig)
    (test : fips_test) (s : state W) :
  (forall (ops : instance_ops) (tfm : handle) (a : crypto_alg)
          (size_call : handle -> call) (declared reported : Z)
          (complaint : string),
     vector_accepted cfg test = true ->
     instance_of test = Some ops ->
     op_size ops = Some (size_call, declared, complaint) ->
     as_ptr _ (fst (api (op_alloc ops) (world s))) = Some (PTR tfm) ->
     let w1 := snd (api (op_alloc ops) (world s)) in
     as_alg _ (fst (api (op_alg ops tfm) w1)) = Some a ->
     Z.land (cra_flags a) (CRYPTO_ALG_ASYNC cfg) = 0 ->
     let w2 := snd (api (op_alg ops tfm) w1) in
     as_size _ (fst (api (size_call tfm) w2)) = Some reported ->
     reported <> declared ->
     call_func api cfg test s
     = (- EINVAL,
        {| world := world_after api (op_release ops tfm)
                      (snd (api (size_call tfm) w2));
           trace := trace s ++
                    Called (op_alloc ops) :: Called (op_alg ops tfm) ::
                    Called (size_call tfm) ::
                    Pr_err complaint [PStr (alg test)] ::
                    map Called (op_release ops tfm) |})) /\
  (forall (tfm req : handle) (a : crypto_alg) (err : Z)
          (w1 w2 w3 w4 w5 w6 w7 w8 : W),
     let vec := aead test in
     let tag_size := to_uint (to_int (size_sub (ciphertext_size vec)
                                        (plaintext_size vec))) in
     func test = Fips_test_aead ->
     vector_accepted cfg test = true ->
     api (Crypto_alloc_aead (alg test)) (world s) = (PTR tfm, w1) ->
     api (Aead_alg tfm) w1 = (a, w2) ->
     Z.land (cra_flags a) (CRYPTO_ALG_ASYNC cfg) = 0 ->
     api (Crypto_aead_ivsize tfm) w2 = (aead_iv_size vec, w3) ->
     api (Aead_request_alloc tfm) w3 = (Some req, w4) ->
     api (Kmalloc (assoc_size vec)) w4 = (true, w5) ->
     api (Kmalloc (ciphertext_size vec)) w5 = (true, w6) ->
     api (Crypto_aead_setkey tfm (aead_key vec) (to_uint (aead_key_size vec)))
       w6
     = (0, w7) ->
     api (Crypto_aead_setauthsize tfm tag_size) w7 = (err, w8) ->
     err <> 0 ->
     let release := [Kfree true; Kfree true; Aead_request_free (Some req);
                     Crypto_free_aead tfm] in
     call_func api cfg test s
     = (err,
        {| world := world_after api release w8;
           trace := trace s ++
                    [Called (Crypto_alloc_aead (alg test));
                     Called (Aead_alg tfm);
                     Called (Crypto_aead_ivsize tfm);
                     Called (Aead_request_alloc tfm);
                     Called (Kmalloc (assoc_size vec));
                     Called (Kmalloc (ciphertext_size vec));
                     Called (Crypto_aead_setkey tfm (aead_key vec)
                               (to_uint (aead_key_size vec)));
                     Called (Crypto_aead_setauthsize tfm tag_size);
                     Pr_err "failed to set %s authentication tag size: %d\n"
                       [PStr (alg test); PInt err]] ++
                    map Called release |})) /\
  existsb reads_tag_size (events_since s (snd (call_func api cfg test s)))
  = false.
Proof.
  split; [|split].
  - intros ops tfm a size_call declared reported complaint
      Hacc Hops Hsize Hptr w1 Halg Hsync w2 Hrep Hne. subst w1 w2.
    unfold instance_of, vector_accepted in *.
    unfold_tests. unfold_monad. destruct s as [w tr].
    destruct (func test); try discriminate;
      injection Hops as <-;
      cbn [op_alloc op_alg op_release op_size as_ptr as_alg world_after map]
        in *;
      try discriminate;
      injection Hsize as <- <- <-; cbn [as_size] in *;
      tidy; resolve; run_path;
      rewrite <- ?app_assoc; reflexivity.
  - intros tfm req a err w1 w2 w3 w4 w5 w6 w7 w8 vec tag_size
      Hf Hacc H1 H2 Hsync H3 H4 H5 H6 H7 H8 Herr release.
    subst vec tag_size release.
    unfold vector_accepted in *.
    unfold_tests. rewrite Hf in *. unfold_monad. destruct s as [w tr].
    cbn [world_after map] in *.
    tidy; resolve; run_path;
      rewrite <- ?app_assoc; reflexivity.
  - unfold_tests. unfold_monad. destruct s as [w tr].
    destruct (func test); tidy; repeat step;
      rewrite <- ?app_assoc; rewrite ?events_since_mk; reflexivity.
Qed.

(** "cbc(aes)" on an instance that reports an IV size of 12, and "gcm(aes)"
    on an instance that refuses the tag size of 16. *)
Lemma size_mismatch_rejected_witness :
  fst (call_func (toy_api (good_toy 12 [])) (linux_config false None)
         example_cbc_test start) = - EINVAL /\
  fst (call_func (toy_api no_tag_toy) (linux_config false None)
         example_gcm_test start) = - EINVAL.
Proof.
  split.
  - rewrite (proj1 (size_mismatch_rejected (toy_api (good_toy 12 []))
                      (linux_config false None) example_cbc_test start)
               {| op_alloc := Crypto_alloc_skcipher "cbc(aes)";
                  op_alg := Skcipher_alg;
                  op_size := Some (Crypto_skcipher_ivsize, 16,
                                   "%s has wrong IV size\n");
                  op_release := fun tfm =>
                    [Kfree false; Skcipher_request_free None;
                     Crypto_free_skcipher tfm] |}
               7
               {| cra_flags := 0; cra_name := "toy";
                  cra_driver_name := "toy-generic" |}
               Crypto_skcipher_ivsize 16 12 "%s has wrong IV size\n");
      try reflexivity.
    discriminate.
  - rewrite (proj1 (proj2 (size_mismatch_rejected (toy_api no_tag_toy)
                             (linux_config false None) example_gcm_test
                             start))
               7 1
               {| cra_flags := 0; cra_name := "toy";
                  cra_driver_name := "toy-generic" |}
               (- EINVAL) 1%nat 2%nat 3%nat 4%nat 5%nat 6%nat 7%nat 8%nat);
      try reflexivity.
    discriminate.
Defined.

(** C6 as stated does not hold for the tag size.  This instance of
    "gcm(aes)" reports a tag size of 16 when it is allocated, the vector
    declares one of 12, and the test does not fail: it sets 12 and passes. *)
Lemma aead_tag_size_not_compared :
  let s := {| world := 0; trace := [] |} in
  let allocated := snd (tag_api (Crypto_alloc_aead "gcm(aes)") (world s)) in
  let vec := aead short_tag_gcm_test in
  fst (tag_api (Crypto_aead_authsize 7) allocated) = 16 /\
  ciphertext_size vec - plaintext_size vec = 12 /\
  fst (fips_test_aead tag_api (linux_config false None) short_tag_gcm_test s)
  = 0.
Proof. repeat split. Qed.

(** ** The tag size of the AEAD test *)




(** ** The DRBG test *)

(** C8: on a synchronous instance and with its output buffer allocated, the
    DRBG test resets the instance with the personalization string and the
    entropy of the vector, generates [out_size] bytes with [add_a] (and
    [entpr_a] when [entpr_size] is not 0), then generates [out_size] bytes
    again with [add_b] (and [entpr_b]).  It returns 0 when the first
    [out_size] bytes of the second generation (their first byte flipped when
    error injection applies) are those of the expected output, and -EBADMSG
    after the "wrong result" diagnostic when they are not; what the first
    generation produced plays no part.  A nonzero status of the reset or of
    either generation is returned at once, after a diagnostic and the
    releases, with nothing compared. *)
Theorem drbg_compares_second_output {W} (api : crypto_api W) (cfg : kconfig)
    (test : fips_test) (s : state W) (rng : handle) (a : crypto_alg)
    (w1 w2 w3 : W) :
  let vec := drbg test in
  let n := Z.to_nat (out_size vec) in
  let reset := Crypto_drbg_reset_test rng
                 (drbg_string_fill (pers vec) (pers_size vec))
                 (drbg_string_fill (entropy vec) (entropy_size vec)) in
  let gen_a := generate_call vec rng (add_a vec) (entpr_a vec) in
  let gen_b := generate_call vec rng (add_b vec) (entpr_b vec) in
  let release := [Kfree true; Crypto_free_rng rng] in
  let prefix := [Called (Crypto_alloc_rng (alg test)); Called (Rng_alg rng);
                 Called (Kmalloc (out_size vec)); Called reset] in
  let ended err w evs :=
    (err, {| world := world_after api release w;
             trace := trace s ++ prefix ++ evs ++ map Called release |}) in
  api (Crypto_alloc_rng (alg test)) (world s) = (PTR rng, w1) ->
  api (Rng_alg rng) w1 = (a, w2) ->
  Z.land (cra_flags a) (CRYPTO_ALG_ASYNC cfg) = 0 ->
  api (Kmalloc (out_size vec)) w2 = (true, w3) ->
  let e0 := fst (api reset w3) in
  let w4 := snd (api reset w3) in
  (e0 <> 0 ->
   fips_test_drbg api cfg test s
   = ended e0 w4 [Pr_err "failed to reset %s\n" [PStr (alg test)]]) /\
  (e0 = 0 ->
   forall (e1 : Z) (out1 : bytes),
     as_output _ (fst (api gen_a w4)) = Some (e1, out1) ->
     let w5 := snd (api gen_a w4) in
     (e1 <> 0 ->
      fips_test_drbg api cfg test s
      = ended e1 w5
          [Called gen_a;
           Pr_err "failed to get bytes from %s (try 1): %d\n"
             [PStr (alg test); PInt e1]]) /\
     (e1 = 0 ->
      forall (e2 : Z) (out2 : bytes),
        as_output _ (fst (api gen_b w5)) = Some (e2, out2) ->
        let w6 := snd (api gen_b w5) in
        let compared :=
          if injection_applies cfg test then corrupt_first_byte out2
          else out2 in
        (e2 <> 0 ->
         fips_test_drbg api cfg test s
         = ended e2 w6
             [Called gen_a; Called gen_b;
              Pr_err "failed to get bytes from %s (try 2): %d\n"
                [PStr (alg test); PInt e2]]) /\
        (e2 = 0 ->
         firstn n compared = firstn n (output vec) ->
         fips_test_drbg api cfg test s
         = ended 0 w6 [Called gen_a; Called gen_b]) /\
        (e2 = 0 ->
         firstn n compared <> firstn n (output vec) ->
         fips_test_drbg api cfg test s
         = ended (- EBADMSG) w6
             [Called gen_a; Called gen_b;
              Pr_err "wrong result from %s %s\n"
                [PStr (alg test); PStr "get_bytes"]]))).
Proof.
  intros vec n reset gen_a gen_b release prefix ended H1 H2 Hsync H3 e0 w4.
  subst vec n reset gen_a gen_b release prefix ended e0 w4.
  unfold generate_call.
  unfold fips_test_drbg, fips_check_result. unfold_monad.
  destruct s as [w tr]. cbn [world_after map app] in *.
  destruct (Z.eqb_spec (entpr_size (drbg test)) 0) as [Hpr|Hpr];
    cbn [negb as_output]; tidy.
  all: repeat match goal with
         | |- _ /\ _ => split
         | |- _ -> _ => intro
         | |- forall _, _ => intro
         | |- let _ := _ in _ => intro
         end.
  all: repeat match goal with x := _ |- _ => subst x end.
  all: tidy; resolve; run_path; rewrite <- ?app_assoc; try reflexivity.
  all: exfalso;
    match goal with
    | H : memcmp _ _ _ = 0 |- _ => apply memcmp_zero_iff in H; contradiction
    | H : memcmp _ _ _ <> 0 |- _ => apply H, memcmp_zero_iff; assumption
    end.
Qed.

(** A DRBG that returns the additional data it is given.  The vector that
    expects [add_b], the output of the second generation, passes; the same
    vector expecting [add_a], the output of the first, fails. *)
Lemma drbg_compares_second_output_witness :
  fst (fips_test_drbg (toy_api echo_toy) (linux_config false None)
         example_drbg_test start) = 0 /\
  fst (fips_test_drbg (toy_api echo_toy) (linux_config false None)
         first_output_drbg_test start) = - EBADMSG.
Proof.
  split.
  - destruct (drbg_compares_second_output (toy_api echo_toy)
                (linux_config false None) example_drbg_test start 7
                {| cra_flags := 0; cra_name := "toy";
                   cra_driver_name := "toy-generic" |}
                1%nat 2%nat 3%nat eq_refl eq_refl eq_refl eq_refl) as [_ H].
    destruct (H eq_refl 0 [1; 2; 3; 4] eq_refl) as [_ H1].
    destruct (H1 eq_refl 0 [5; 6; 7; 8] eq_refl) as (_ & H2 & _).
    rewrite (H2 eq_refl eq_refl). reflexivity.
  - destruct (drbg_compares_second_output (toy_api echo_toy)
                (linux_config false None) first_output_drbg_test start 7
                {| cra_flags := 0; cra_name := "toy";
                   cra_driver_name := "toy-generic" |}
                1%nat 2%nat 3%nat eq_refl eq_refl eq_refl eq_refl) as [_ H].
    destruct (H eq_refl 0 [1; 2; 3; 4] eq_refl) as [_ H1].
    destruct (H1 eq_refl 0 [5; 6; 7; 8] eq_refl) as (_ & _ & H2).
    rewrite (H2 eq_refl); [reflexivity | discriminate].
Defined.

(** * Further properties of the test functions and of the run *)

(** The next decision of a run that is the last argument of the goal. *)
Ltac step_run :=
  lazymatch goal with
  | |- _ ?r = _ => let h := head r in destruct_head h
  | |- _ ?r => let h := head r in destruct_head h
  end.

Ltac replay_known :=
  repeat match goal with
    | H : ?api ?c ?w = _ |- context [?api ?c ?w] => rewrite H
    end.

Ltac split_bools :=
  repeat match goal with x : bool |- _ => destruct x end.

(** ** Nothing is left allocated *)

Lemma events_since_extends {W} (s s' : state W) (l : list event) :
  trace s' = trace s ++ l -> events_since s s' = l.
Proof.
  intros H. unfold events_since. rewrite H, skipn_app, skipn_all, Nat.sub_diag.
  reflexivity.
Qed.

Lemma replay_app {W} (api : crypto_api W) (l1 l2 : list event) (w : W) :
  replay api (l1 ++ l2) w
  = (fst (replay api l1 w) + fst (replay api l2 (snd (replay api l1 w))),
     snd (replay api l2 (snd (replay api l1 w)))).
Proof.
  revert w. induction l1 as [|e l1 IH]; intros w; simpl.
  - destruct (replay api l2 w). reflexivity.
  - destruct e; try apply IH.
    destruct (api c w) as [a w']. rewrite IH.
    destruct (replay api l1 w') as [h1 w1]. simpl.
    f_equal. lia.
Qed.

Lemma gives_back_refl {W A} (api : crypto_api W) (s : state W) (x : A) :
  gives_back api s (x, s).
Proof.
  unfold gives_back. simpl.
  assert (E : events_since s s = []).
  { apply events_since_extends. symmetry. apply app_nil_r. }
  rewrite E. split; [symmetry; apply app_nil_r | reflexivity].
Qed.

Lemma gives_back_trans {W A B C} (api : crypto_api W) (s s1 s2 : state W)
    (x : A) (y : B) (z : C) :
  gives_back api s (x, s1) -> gives_back api s1 (y, s2) ->
  gives_back api s (z, s2).
Proof.
  unfold gives_back. simpl. intros [T1 R1] [T2 R2].
  assert (E : events_since s s2 = events_since s s1 ++ events_since s1 s2).
  { apply events_since_extends. rewrite T2 at 1. rewrite T1 at 1.
    symmetry. apply app_assoc. }
  rewrite E. split.
  - rewrite T2 at 1. rewrite T1 at 1. symmetry. apply app_assoc.
  - rewrite replay_app, R1. simpl. rewrite R2. reflexivity.
Qed.

Lemma gives_back_printk {W A} (api : crypto_api W) (s : state W) (e : event)
    (x : A) :
  match e with Called _ => False | _ => True end ->
  gives_back api s (x, logged e s).
Proof.
  intros He. unfold gives_back, logged. simpl.
  rewrite events_since_app. split; [reflexivity|].
  destruct e; simpl; try reflexivity. contradiction.
Qed.

(** Every path of every test function, followed to its end. *)
Lemma test_function_gives_back {W} (api : crypto_api W) (cfg : kconfig)
    (test : fips_test) (s : state W) :
  gives_back api s (call_func api cfg test s).
Proof.
  unfold_tests. unfold_monad. destruct s as [w tr].
  destruct (func test); tidy; repeat step_run; split_bools;
    unfold gives_back; cbn [fst snd world trace];
    rewrite <- ?app_assoc; rewrite ?events_since_mk;
    (split; [reflexivity|]); cbn [replay app]; replay_known;
    cbn [acquired released replay]; reflexivity.
Qed.

(** X1: whatever the provider answers and however a test function ends, it
    has released every instance, request and buffer that it was given: made
    again from the world it started in, the calls the run recorded acquire
    and release in equal numbers and lead to the world the run ended in. *)
Theorem call_func_gives_back {W} (api : crypto_api W) (cfg : kconfig)
    (test : fips_test) (s : state W) :
  gives_back api s (call_func api cfg test s).
Proof. exact (test_function_gives_back api cfg test s). Qed.

Lemma run_selftests_from_gives_back {W} (api : crypto_api W) (cfg : kconfig)
    (tests : list fips_test) (s : state W) :
  gives_back api s (run_selftests_from api cfg tests s).
Proof.
  revert s. induction tests as [|test rest IH]; intros s.
  - apply (gives_back_printk api s (Pr_info "all self-tests passed\n" []) true).
    exact I.
  - rewrite run_selftests_from_cons.
    pose proof (test_function_gives_back api cfg test s) as H.
    destruct (call_func api cfg test s) as [err s1]. cbn [fst snd] in *.
    destruct (err =? 0).
    + specialize (IH s1).
      destruct (run_selftests_from api cfg rest s1) as [b s2].
      exact (gives_back_trans api s s1 s2 err b b H IH).
    + apply (gives_back_trans api s s1 _ err false false H).
      apply gives_back_printk. exact I.
Qed.

(** X2: a whole run of the self-tests, whether it passes or stops at a
    failing test, leaves nothing allocated either. *)
Theorem fips140_run_selftests_gives_back {W} (api : crypto_api W)
    (cfg : kconfig) (tv : generated_testvecs) (s : state W) :
  gives_back api s (fips140_run_selftests api cfg tv s).
Proof.
  change (fips140_run_selftests api cfg tv s)
    with (run_selftests_from api cfg (fips140_selftests tv)
            (logged (Pr_info "running self-tests\n" []) s)).
  pose proof (run_selftests_from_gives_back api cfg (fips140_selftests tv)
                (logged (Pr_info "running self-tests\n" []) s)) as H.
  destruct (run_selftests_from api cfg (fips140_selftests tv)
              (logged (Pr_info "running self-tests\n" []) s)) as [b s2].
  apply (gives_back_trans api s (logged (Pr_info "running self-tests\n" []) s)
           s2 tt b b); [|exact H].
  apply gives_back_printk. exact I.
Qed.

(** ** A missing algorithm *)

(** X3: when the crypto API has no instance of the algorithm to give
    ([crypto_alloc_*] returns an error pointer), the test function returns
    the errno of that pointer after one diagnostic; it calls nothing else,
    and has nothing to release. *)
Theorem alloc_failure_returned {W} (api : crypto_api W) (cfg : kconfig)
    (test : fips_test) (s : state W) (ops : instance_ops) (errno : positive) :
  vector_accepted cfg test = true ->
  instance_of test = Some ops ->
  as_ptr _ (fst (api (op_alloc ops) (world s))) = Some (ERR_PTR errno) ->
  call_func api cfg test s
  = (PTR_ERR errno,
     {| world := snd (api (op_alloc ops) (world s));
        trace := trace s ++
                 [Called (op_alloc ops);
                  Pr_err "failed to allocate %s tfm: %d\n"
                    [PStr (alg test); PInt (PTR_ERR errno)]] |}).
Proof.
  intros Hacc Hops Hptr.
  unfold instance_of, vector_accepted in *.
  unfold_tests. unfold_monad. destruct s as [w tr].
  destruct (func test); try discriminate;
    injection Hops as <-;
    cbn [op_alloc as_ptr] in *;
    tidy; resolve; run_path;
    try match goal with
      | H : ERR_PTR _ = ERR_PTR _ |- _ => injection H as ->
      end;
    rewrite <- ?app_assoc; reflexivity.
Qed.

Lemma alloc_failure_returned_witness :
  call_func (toy_api empty_toy) (linux_config false None) example_cbc_test start
  = (-2,
     {| world := 1%nat;
        trace := [Called (Crypto_alloc_skcipher "cbc(aes)");
                  Pr_err "failed to allocate %s tfm: %d\n"
                    [PStr "cbc(aes)"; PInt (-2)]] |}).
Proof.
  apply (alloc_failure_returned (toy_api empty_toy) (linux_config false None)
           example_cbc_test start
           {| op_alloc := Crypto_alloc_skcipher "cbc(aes)";
              op_alg := Skcipher_alg;
              op_size := Some (Crypto_skcipher_ivsize, 16,
                               "%s has wrong IV size\n");
              op_release := fun tfm =>
                [Kfree false; Skcipher_request_free None;
                 Crypto_free_skcipher tfm] |}
           2%positive);
    reflexivity.
Defined.

(** ** No silent failure but for want of memory *)

(** X4: a test function that returns a nonzero status has printed a
    diagnostic ([pr_err] or [WARN_ON]), except when the status is -ENOMEM
    and it had asked for a request or a buffer: those failures are the only
    silent ones. *)
Theorem call_func_failure_explained {W} (api : crypto_api W) (cfg : kconfig)
    (test : fips_test) (s : state W) :
  failure_explained s (call_func api cfg test s) = true.
Proof.
  unfold_tests. unfold_monad. destruct s as [w tr].
  destruct (func test); tidy; repeat step_run; split_bools;
    unfold failure_explained; cbn [fst snd];
    rewrite <- ?app_assoc; rewrite ?events_since_mk;
    cbn [existsb is_diagnostic asks_for_memory app orb andb Z.eqb Z.opp];
    try reflexivity;
    rewrite ?orb_true_r; reflexivity.
Qed.

(** ** Keys before encryption, encryption before decryption *)

(** X5: in every run of every test function, a cipher, the AES library, a
    length-preserving cipher or an AEAD is asked to encrypt only after its
    key has been set (or expanded), to decrypt only after it has also been
    asked to encrypt, and the DRBG is asked for bytes only after it has been
    reset. *)
Theorem call_func_prepared_before_use {W} (api : crypto_api W) (cfg : kconfig)
    (test : fips_test) (s : state W) :
  prepared_before_use s (call_func api cfg test s) = true.
Proof.
  unfold_tests. unfold_monad. destruct s as [w tr].
  destruct (func test); tidy; repeat step_run; split_bools;
    unfold prepared_before_use; cbn [fst snd];
    rewrite <- ?app_assoc; rewrite ?events_since_mk;
    reflexivity.
Qed.

(** X15: a test function that returns 0 has printed no diagnostic: every
    [pr_err] and every [WARN_ON] that fires is followed by a nonzero
    status. *)
Theorem call_func_quiet_on_success {W} (api : crypto_api W) (cfg : kconfig)
    (test : fips_test) (s : state W) :
  quiet_on_success s (call_func api cfg test s) = true.
Proof.
  unfold_tests. unfold_monad. destruct s as [w tr].
  destruct (func test); tidy; repeat step_run; split_bools;
    unfold quiet_on_success; cbn [fst snd];
    rewrite <- ?app_assoc; rewrite ?events_since_mk;
    cbn [existsb is_diagnostic app orb negb implb Z.eqb Z.opp];
    try reflexivity;
    try solve [exfalso; congruence];
    match goal with
    | |- implb (?x =? 0) _ = true =>
        destruct (Z.eqb_spec x 0);
          first [reflexivity | exfalso; congruence]
    end.
Qed.

(** ** When a test passes *)

Ltac step_iff :=
  lazymatch goal with
  | |- (?l = _) <-> _ => let h := head l in destruct_head h
  end.

Ltac to_firstn :=
  repeat match goal with
    | H : memcmp _ _ _ = 0 |- _ => apply memcmp_zero_iff in H
    | H : memcmp _ _ _ <> 0 |- _ => rewrite memcmp_zero_iff in H
    end.

Ltac iff_leaf :=
  to_firstn;
  split;
  [ intros ?;
    try solve [exfalso; first [discriminate | congruence | lia]];
    repeat split; first [assumption | congruence]
  | intros ?;
    repeat match goal with H : _ /\ _ |- _ => destruct H end;
    try reflexivity;
    exfalso; first [congruence | lia | contradiction] ].

(** X6: on a synchronous instance and without error injection for its
    algorithm, the block cipher test returns 0 exactly when the instance
    reports the block size of the vector, accepts the key (with its length
    as the [unsigned int] it is passed as), encrypts the
    plaintext block into the expected ciphertext and decrypts what it
    encrypted back into the plaintext, each over [block_size] bytes. *)
Theorem fips_test_blockcipher_passes_iff {W} (api : crypto_api W)
    (cfg : kconfig) (test : fips_test) (s : state W) (tfm : handle)
    (a : crypto_alg) (w1 w2 : W) :
  let vec := blockcipher test in
  let n := Z.to_nat (block_size vec) in
  injection_applies cfg test = false ->
  block_size vec <= MAX_CIPHER_BLOCKSIZE cfg ->
  api (Crypto_alloc_cipher (alg test)) (world s) = (PTR tfm, w1) ->
  api (Cipher_alg tfm) w1 = (a, w2) ->
  Z.land (cra_flags a) (CRYPTO_ALG_ASYNC cfg) = 0 ->
  let size := api (Crypto_cipher_blocksize tfm) w2 in
  let keyed := api (Crypto_cipher_setkey tfm (bc_key vec)
                      (to_uint (bc_key_size vec)))
                 (snd size) in
  let enc := api (Crypto_cipher_encrypt_one tfm
                    (memcpy (local_array (MAX_CIPHER_BLOCKSIZE cfg))
                       (bc_plaintext vec) (block_size vec)))
               (snd keyed) in
  let dec := api (Crypto_cipher_decrypt_one tfm (fst enc)) (snd enc) in
  fst (fips_test_blockcipher api cfg test s) = 0 <->
  fst size = block_size vec /\
  fst keyed = 0 /\
  firstn n (fst enc) = firstn n (bc_ciphertext vec) /\
  firstn n (fst dec) = firstn n (bc_plaintext vec).
Proof.
  intros vec n Hinj Hmax H1 H2 Hsync size keyed enc dec.
  subst vec n size keyed enc dec.
  unfold fips_test_blockcipher, fips_check_result. rewrite Hinj.
  unfold_monad. destruct s as [w tr]. tidy.
  repeat (step_iff; resolve; try solve [exfalso; first [congruence | lia]]).
  all: iff_leaf.
Qed.

Lemma fips_test_blockcipher_passes_iff_witness :
  fst (fips_test_blockcipher (toy_api (good_toy 16 [])) (linux_config false None)
         example_block_test start) = 0.
Proof.
  apply (fips_test_blockcipher_passes_iff (toy_api (good_toy 16 []))
           (linux_config false None) example_block_test start 7
           {| cra_flags := 0; cra_name := "toy";
              cra_driver_name := "toy-generic" |} 1%nat 2%nat);
    try reflexivity; try discriminate; repeat split.
Defined.



(** X8: on a synchronous instance, without error injection for its
    algorithm and with its request and its two buffers allocated, the AEAD
    test returns 0 exactly when the instance reports the IV size of the
    vector,
    accepts the key and the tag size, encrypts the plaintext (in a zeroed
    buffer of [ciphertext_size] bytes, after the associated data when there
    is some) with status 0 into the expected ciphertext and tag, and, with
    the IV copied again, decrypts that with status 0 into the plaintext over
    [plaintext_size] bytes.  The lengths it passes to the instance are
    [unsigned int]. *)
Theorem fips_test_aead_passes_iff {W} (api : crypto_api W)
    (cfg : kconfig) (test : fips_test) (s : state W) (tfm req : handle)
    (a : crypto_alg) (w1 w2 w3 w4 w5 : W) :
  let vec := aead test in
  let iv := memcpy (local_array MAX_IV_SIZE) (aead_iv vec) (aead_iv_size vec) in
  let iv_again := memcpy iv (aead_iv vec) (aead_iv_size vec) in
  let ad : bytes := firstn (Z.to_nat (assoc_size vec)) (assoc vec) in
  let sg_assoc := if negb (assoc_size vec =? 0)
                  then [(ad, to_uint (assoc_size vec))] else [] in
  let msg : bytes := memcpy (repeat 0 (Z.to_nat (ciphertext_size vec)))
               (aead_plaintext vec) (plaintext_size vec) in
  injection_applies cfg test = false ->
  aead_iv_size vec <= MAX_IV_SIZE ->
  plaintext_size vec < ciphertext_size vec ->
  api (Crypto_alloc_aead (alg test)) (world s) = (PTR tfm, w1) ->
  api (Aead_alg tfm) w1 = (a, w2) ->
  Z.land (cra_flags a) (CRYPTO_ALG_ASYNC cfg) = 0 ->
  let size := api (Crypto_aead_ivsize tfm) w2 in
  api (Aead_request_alloc tfm) (snd size) = (Some req, w3) ->
  api (Kmalloc (assoc_size vec)) w3 = (true, w4) ->
  api (Kmalloc (ciphertext_size vec)) w4 = (true, w5) ->
  let keyed := api (Crypto_aead_setkey tfm (aead_key vec)
                      (to_uint (aead_key_size vec)))
                 w5 in
  let tagged := api (Crypto_aead_setauthsize tfm
                       (to_uint (to_int (size_sub (ciphertext_size vec)
                                           (plaintext_size vec)))))
                  (snd keyed) in
  let enc := api (Crypto_aead_encrypt req
                    (sg_assoc ++ [(msg, to_uint (ciphertext_size vec))])
                    (to_uint (assoc_size vec)) (to_uint (plaintext_size vec))
                    iv) (snd tagged) in
  let dec := api (Crypto_aead_decrypt req
                    (sg_assoc ++
                     [(snd (fst enc), to_uint (ciphertext_size vec))])
                    (to_uint (assoc_size vec)) (to_uint (ciphertext_size vec))
                    iv_again)
               (snd enc) in
  fst (fips_test_aead api cfg test s) = 0 <->
  fst size = aead_iv_size vec /\
  fst keyed = 0 /\
  fst tagged = 0 /\
  fst (fst enc) = 0 /\
  firstn (Z.to_nat (ciphertext_size vec)) (snd (fst enc))
  = firstn (Z.to_nat (ciphertext_size vec)) (aead_ciphertext vec) /\
  fst (fst dec) = 0 /\
  firstn (Z.to_nat (plaintext_size vec)) (snd (fst dec))
  = firstn (Z.to_nat (plaintext_size vec)) (aead_plaintext vec).
Proof.
  intros vec iv iv_again ad sg_assoc msg Hinj Hmax Hlen H1 H2 Hsync size
    H3 H4 H5 keyed tagged enc dec.
  subst vec iv iv_again ad sg_assoc msg size keyed tagged enc dec.
  unfold fips_test_aead, fips_check_result. rewrite Hinj.
  unfold_monad. destruct s as [w tr]. tidy.
  repeat (step_iff; resolve; try solve [exfalso; first [congruence | lia]]).
  all: iff_leaf.
Qed.

Lemma fips_test_aead_passes_iff_witness :
  fst (fips_test_aead (toy_api (good_toy 12 [])) (linux_config false None)
         example_gcm_pass_test start) = 0.
Proof.
  apply (fips_test_aead_passes_iff (toy_api (good_toy 12 []))
           (linux_config false None) example_gcm_pass_test start 7 1
           {| cra_flags := 0; cra_name := "toy";
              cra_driver_name := "toy-generic" |}
           1%nat 2%nat 4%nat 5%nat 6%nat);
    try reflexivity; try discriminate; repeat split.
Defined.

(** X9: on a synchronous instance and without error injection for its
    algorithm, the hash test returns 0 exactly when the instance reports the
    digest size of the vector, accepts the key when the vector has one, and
    digests the message (key and message lengths passed as [unsigned int])
    with status 0 into the expected digest.  For a vector without a key no key is set: the message
    is digested in the world that the size query left. *)
Theorem fips_test_hash_passes_iff {W} (api : crypto_api W)
    (cfg : kconfig) (test : fips_test) (s : state W) (tfm : handle)
    (a : crypto_alg) (w1 w2 : W) :
  let vec := hash test in
  let n := Z.to_nat (digest_size vec) in
  injection_applies cfg test = false ->
  digest_size vec <= HASH_MAX_DIGESTSIZE cfg ->
  api (Crypto_alloc_shash (alg test)) (world s) = (PTR tfm, w1) ->
  api (Shash_alg tfm) w1 = (a, w2) ->
  Z.land (cra_flags a) (CRYPTO_ALG_ASYNC cfg) = 0 ->
  let size := api (Crypto_shash_digestsize tfm) w2 in
  let keyed : Z * W :=
    match hash_key vec with
    | Some key => api (Crypto_shash_setkey tfm key
                         (to_uint (hash_key_size vec)))
                    (snd size)
    | None => (0, snd size)
    end in
  let dig := api (Crypto_shash_tfm_digest tfm (message vec)
                    (to_uint (message_size vec)))
               (snd keyed) in
  fst (fips_test_hash api cfg test s) = 0 <->
  fst size = digest_size vec /\
  fst keyed = 0 /\
  fst (fst dig) = 0 /\
  firstn n (snd (fst dig)) = firstn n (digest vec).
Proof.
  intros vec n Hinj Hmax H1 H2 Hsync size keyed dig.
  subst vec n size keyed dig.
  unfold fips_test_hash, fips_check_result. rewrite Hinj.
  unfold_monad. destruct s as [w tr]. tidy.
  repeat (step_iff; resolve; try solve [exfalso; first [congruence | lia]]).
  all: iff_leaf.
Qed.

Lemma fips_test_hash_passes_iff_witness :
  fst (fips_test_hash (toy_api (good_toy 32 example_digest))
         (linux_config false None) example_hmac_test start) = 0.
Proof.
  apply (fips_test_hash_passes_iff (toy_api (good_toy 32 example_digest))
           (linux_config false None) example_hmac_test start 7
           {| cra_flags := 0; cra_name := "toy";
              cra_driver_name := "toy-generic" |} 1%nat 2%nat);
    try reflexivity; try discriminate; repeat split.
Defined.

(** X10: without error injection for its algorithm, the test of the
    sha256() library function returns 0 exactly when the vector declares a
    digest of SHA256_DIGEST_SIZE bytes and sha256() of the message, given
    the message length as an [unsigned int], is the expected digest; that
    call of sha256() is the only thing it asks of its environment. *)
Theorem fips_test_sha256_library_passes_iff {W} (api : crypto_api W)
    (cfg : kconfig) (test : fips_test) (s : state W) :
  let vec := hash test in
  let n := Z.to_nat (digest_size vec) in
  let run := fips_test_sha256_library api cfg test s in
  injection_applies cfg test = false ->
  (fst run = 0 <->
   digest_size vec = SHA256_DIGEST_SIZE cfg /\
   firstn n (fst (api (Sha256 (message vec) (to_uint (message_size vec)))
                    (world s)))
   = firstn n (digest vec)) /\
  (forall c : call,
     In (Called c) (events_since s (snd run)) ->
     c = Sha256 (message vec) (to_uint (message_size vec))).
Proof.
  intros vec n run Hinj. subst vec n run.
  unfold fips_test_sha256_library, fips_check_result. rewrite Hinj.
  unfold_monad. destruct s as [w tr]. tidy.
  destruct (Z.eqb_spec (digest_size (hash test)) (SHA256_DIGEST_SIZE cfg))
    as [Hsz|Hsz]; tidy.
  - destruct (api (Sha256 (message (hash test))
                     (to_uint (message_size (hash test)))) w)
      as [d w'] eqn:Hd. tidy.
    destruct (Z.eqb_spec
                (memcmp d (digest (hash test))
                   (Z.to_nat (digest_size (hash test)))) 0) as [Hm|Hm]; tidy.
    + split; [iff_leaf|].
      rewrite events_since_mk. intros c Hc. cbn [In app] in Hc.
      repeat destruct Hc as [Hc|Hc]; try contradiction; try discriminate.
      inversion Hc. reflexivity.
    + split; [iff_leaf|].
      rewrite <- app_assoc, events_since_mk. intros c Hc. cbn [In app] in Hc.
      repeat destruct Hc as [Hc|Hc]; try contradiction; try discriminate.
      inversion Hc. reflexivity.
  - split; [iff_leaf|].
    rewrite events_since_mk. intros c Hc. cbn [In app] in Hc.
    repeat destruct Hc as [Hc|Hc]; try contradiction; discriminate.
Qed.

Lemma fips_test_sha256_library_passes_iff_witness :
  fst (fips_test_sha256_library (toy_api (good_toy 32 example_digest))
         (linux_config false None) example_sha256_test start) = 0.
Proof.
  apply (proj1 (fips_test_sha256_library_passes_iff
                  (toy_api (good_toy 32 example_digest))
                  (linux_config false None) example_sha256_test start
                  eq_refl)).
  repeat split.
Defined.

(** X11: without error injection for its algorithm and for a vector of
    AES_BLOCK_SIZE bytes per block, the AES test first runs the block cipher
    test on its vector, and returns what that returned, in the state that
    left, when it failed.
    When it passed, the AES test returns 0 exactly when aes_expandkey()
    accepts the key (its length passed as [unsigned int]) and aes_encrypt() and aes_decrypt() with the expanded
    key take the plaintext to the expected ciphertext and back, over
    AES_BLOCK_SIZE bytes. *)
Theorem fips_test_aes_after_blockcipher {W} (api : crypto_api W)
    (cfg : kconfig) (test : fips_test) (s : state W) :
  let vec := blockcipher test in
  let n := Z.to_nat (AES_BLOCK_SIZE cfg) in
  let r := fips_test_blockcipher api cfg test s in
  injection_applies cfg test = false ->
  block_size vec = AES_BLOCK_SIZE cfg ->
  (fst r <> 0 -> fips_test_aes api cfg test s = r) /\
  (fst r = 0 ->
   let key := api (Aes_expandkey (bc_key vec) (to_uint (bc_key_size vec)))
                (world (snd r)) in
   let enc := api (Aes_encrypt (snd (fst key)) (bc_plaintext vec)) (snd key) in
   let dec := api (Aes_decrypt (snd (fst key)) (fst enc)) (snd enc) in
   fst (fips_test_aes api cfg test s) = 0 <->
   fst (fst key) = 0 /\
   firstn n (fst enc) = firstn n (bc_ciphertext vec) /\
   firstn n (fst dec) = firstn n (bc_plaintext vec)).
Proof.
  intros vec n r Hinj Hsz. subst vec n r.
  unfold fips_test_aes, fips_check_result. rewrite Hinj.
  unfold WARN_ON, pr_err. unfold log, bind, ret. cbv [EINVAL EBADMSG].
  destruct (Z.eqb_spec (block_size (blockcipher test)) (AES_BLOCK_SIZE cfg))
    as [_|Hne]; [|contradiction]. tidy.
  destruct (fips_test_blockcipher api cfg test s) as [err [w tr]]. tidy.
  destruct (Z.eqb_spec err 0) as [E|E]; tidy.
  - split; [intros; contradiction|]. intros _.
    unfold do_call. tidy.
    repeat (step_iff; resolve; try solve [exfalso; first [congruence | lia]]).
    all: iff_leaf.
  - split; [reflexivity | intros; contradiction].
Qed.

Lemma fips_test_aes_after_blockcipher_witness :
  fst (fips_test_aes (toy_api (good_toy 16 [])) (linux_config false None)
         example_block_test start) = 0.
Proof.
  destruct (fips_test_aes_after_blockcipher (toy_api (good_toy 16 []))
              (linux_config false None) example_block_test start
              eq_refl eq_refl) as [_ H].
  apply (H eq_refl). repeat split.
Defined.

(** ** Error injection and the whole run *)

Lemma call_func_without_injection {W} (api : crypto_api W) (cfg : kconfig)
    (test : fips_test) :
  injection_applies cfg test = false ->
  call_func api cfg test = call_func api (no_injection cfg) test.
Proof.
  intros Hinj.
  pose proof (injection_applies_no_injection cfg test) as Hinj0.
  unfold_tests. rewrite Hinj, Hinj0. destruct (func test); reflexivity.
Qed.

Lemma run_selftests_from_without_injection {W} (api : crypto_api W)
    (cfg : kconfig) (tests : list fips_test) :
  (forall t, In t tests -> injection_applies cfg t = false) ->
  forall s : state W,
    run_selftests_from api cfg tests s
    = run_selftests_from api (no_injection cfg) tests s.
Proof.
  induction tests as [|t rest IH]; intros Hall s.
  - reflexivity.
  - rewrite !run_selftests_from_cons.
    rewrite (call_func_without_injection api cfg t) by (apply Hall; now left).
    destruct (fst (call_func api (no_injection cfg) t s) =? 0);
      [|reflexivity].
    apply IH. intros t' Ht'. apply Hall. now right.
Qed.

(** X12: when error injection is compiled out, or names no algorithm, or
    names an algorithm that is not in the registry, a whole run of the
    self-tests is the run with nothing named: same verdict, same world, same
    trace. *)
Theorem fips140_run_selftests_without_injection {W} (api : crypto_api W)
    (cfg : kconfig) (tv : generated_testvecs) (s : state W) :
  CONFIG_CRYPTO_FIPS140_MOD_ERROR_INJECTION cfg = false \/
  fips140_broken_alg cfg = None \/
  (exists broken, fips140_broken_alg cfg = Some broken /\
                  ~ In broken (map alg (fips140_selftests tv))) ->
  fips140_run_selftests api cfg tv s
  = fips140_run_selftests api (no_injection cfg) tv s.
Proof.
  intros H.
  change (run_selftests_from api cfg (fips140_selftests tv)
            (logged (Pr_info "running self-tests\n" []) s)
          = run_selftests_from api (no_injection cfg) (fips140_selftests tv)
              (logged (Pr_info "running self-tests\n" []) s)).
  apply run_selftests_from_without_injection.
  intros t Ht.
  destruct (injection_applies cfg t) eqn:E; [|reflexivity].
  apply injection_applies_spec in E. destruct E as [Hc Hb].
  destruct H as [H|[H|(b & H & Hn)]]; try congruence.
  exfalso. apply Hn. rewrite Hb in H. injection H as <-.
  apply in_map. exact Ht.
Qed.

Lemma injected_call_func_fails {W} (api : crypto_api W) (cfg : kconfig)
    (test : fips_test) (s : state W) :
  injection_applies cfg test = true ->
  0 < snd (first_expected test) ->
  fst (first_expected test) <> [] ->
  fst (call_func api (no_injection cfg) test s) = 0 ->
  fst (call_func api cfg test s) = - EBADMSG.
Proof.
  intros Hinj Hn Hne H0.
  pose proof (injection_applies_no_injection cfg test) as Hinj0.
  unfold first_expected in Hn, Hne.
  unfold_tests. rewrite Hinj0 in H0. rewrite Hinj.
  unfold_monad.
  cbn [MAX_CIPHER_BLOCKSIZE CRYPTO_ALG_ASYNC AES_BLOCK_SIZE HASH_MAX_DIGESTSIZE
       SHA256_DIGEST_SIZE no_injection] in *.
  destruct s as [w tr].
  destruct (func test); tidy; repeat step;
    try dead H0; at_check H0 Hn Hne.
Qed.

Lemma run_selftests_from_injected {W} (api : crypto_api W) (cfg : kconfig)
    (pre post : list fips_test) (test : fips_test) :
  (forall t, In t pre -> alg t <> alg test) ->
  injection_applies cfg test = true ->
  0 < snd (first_expected test) ->
  fst (first_expected test) <> [] ->
  forall s : state W,
    fst (run_selftests_from api (no_injection cfg) (pre ++ test :: post) s)
    = true ->
    run_selftests_from api cfg (pre ++ test :: post) s
    = (false,
       logged (Pr_emerg "self-tests failed for algorithm %s: %d\n"
                 [PStr (alg test); PInt (- EBADMSG)])
         (snd (call_func api cfg test
                 (state_after api (no_injection cfg) pre s)))).
Proof.
  intros Hpre Hinj Hn Hne.
  induction pre as [|t pre IH]; intros s Hpass.
  - simpl app in *. rewrite run_selftests_from_cons in *. simpl state_after.
    destruct (Z.eqb_spec (fst (call_func api (no_injection cfg) test s)) 0)
      as [E|E]; [|discriminate].
    rewrite (injected_call_func_fails api cfg test s Hinj Hn Hne E).
    reflexivity.
  - simpl app in *. rewrite run_selftests_from_cons in *. simpl state_after.
    assert (Ht : injection_applies cfg t = false).
    { destruct (injection_applies cfg t) eqn:E; [|reflexivity].
      apply injection_applies_spec in E.
      apply injection_applies_spec in Hinj.
      exfalso. apply (Hpre t); [now left|].
      destruct E as [_ E], Hinj as [_ Hinj]. congruence. }
    rewrite (call_func_without_injection api cfg t Ht).
    destruct (fst (call_func api (no_injection cfg) t s) =? 0);
      [|discriminate].
    apply IH; [|exact Hpass].
    intros t' Ht'. apply Hpre. now right.
Qed.

Lemma registry_names_distinct (tv : generated_testvecs) :
  NoDup (map alg (fips140_selftests tv)).
Proof.
  cbn [map fips140_selftests alg blockcipher_test skcipher_test aead_test
       hash_test drbg_test].
  repeat (constructor; [cbn [In]; intuition discriminate|]).
  constructor.
Qed.

(** X13: error injection is observable from the outside.  When it names the
    algorithm of a test of the registry whose first comparison covers at
    least one byte of a non-empty expected result, and the self-tests pass
    with nothing named, then the run with that algorithm named returns
    false, and its last word is the report that this algorithm failed with
    -EBADMSG. *)
Theorem fips140_run_selftests_injection_observed {W} (api : crypto_api W)
    (cfg : kconfig) (tv : generated_testvecs) (s : state W) (k : nat)
    (test : fips_test) :
  nth_error (fips140_selftests tv) k = Some test ->
  injection_applies cfg test = true ->
  0 < snd (first_expected test) ->
  fst (first_expected test) <> [] ->
  fst (fips140_run_selftests api (no_injection cfg) tv s) = true ->
  fst (fips140_run_selftests api cfg tv s) = false /\
  last (trace (snd (fips140_run_selftests api cfg tv s))) Warned
  = Pr_emerg "self-tests failed for algorithm %s: %d\n"
      [PStr (alg test); PInt (- EBADMSG)].
Proof.
  intros Hk Hinj Hn Hne Hpass.
  destruct (nth_error_split _ _ Hk) as (pre & post & Heq & _).
  pose proof (registry_names_distinct tv) as Hnd.
  change (fst (run_selftests_from api (no_injection cfg) (fips140_selftests tv)
                 (logged (Pr_info "running self-tests\n" []) s)) = true)
    in Hpass.
  change (fips140_run_selftests api cfg tv s)
    with (run_selftests_from api cfg (fips140_selftests tv)
            (logged (Pr_info "running self-tests\n" []) s)).
  rewrite Heq in *.
  rewrite (run_selftests_from_injected api cfg pre post test); try assumption.
  - split; [reflexivity|]. unfold logged. cbn [snd trace].
    apply last_last.
  - intros t Ht Halg. rewrite map_app in Hnd. cbn [map] in Hnd.
    apply NoDup_remove_2 in Hnd. apply Hnd.
    apply in_or_app. left. rewrite <- Halg. apply in_map. exact Ht.
Qed.

(** The registry passes on its provider with error injection compiled out,
    whatever is named. *)
Lemma fips140_run_selftests_without_injection_witness :
  let cfg := linux_config false (Some "sha1") in
  fips140_run_selftests registry_api cfg passing_testvecs start
  = fips140_run_selftests registry_api (no_injection cfg) passing_testvecs start
  /\ fst (fips140_run_selftests registry_api cfg passing_testvecs start) = true.
Proof.
  intros cfg. split.
  - apply (fips140_run_selftests_without_injection registry_api cfg
             passing_testvecs start).
    left. reflexivity.
  - vm_compute. reflexivity.
Defined.

(** With "sha1" named, the run that passed fails at the seventh test. *)
Lemma fips140_run_selftests_injection_observed_witness :
  let cfg := linux_config true (Some "sha1") in
  fst (fips140_run_selftests registry_api cfg passing_testvecs start) = false.
Proof.
  intros cfg.
  apply (fips140_run_selftests_injection_observed registry_api cfg
           passing_testvecs start 6
           (hash_test "sha1" Fips_test_hash
              {| hash_key := None; hash_key_size := 0;
                 message := example_message; message_size := 32;
                 digest := repeat 0xab 20; digest_size := 20 |})).
  - reflexivity.
  - reflexivity.
  - reflexivity.
  - discriminate.
  - vm_compute. reflexivity.
Defined.

(** ** Want of memory *)

(** X14: when the request or a buffer of a test cannot be allocated, the
    test returns -ENOMEM without a diagnostic.  It has set no key and reset
    no DRBG, and it passes to [kfree] and to the release of the request
    exactly what the allocations returned, NULL included, before it
    releases the instance. *)
Theorem allocation_failure_is_enomem {W} (api : crypto_api W) (cfg : kconfig)
    (test : fips_test) (s : state W) (tfm : handle) (a : crypto_alg)
    (w1 w2 w3 : W) :
  Z.land (cra_flags a) (CRYPTO_ALG_ASYNC cfg) = 0 ->
  (let vec := skcipher test in
   sk_iv_size vec <= MAX_IV_SIZE ->
   api (Crypto_alloc_skcipher (alg test)) (world s) = (PTR tfm, w1) ->
   api (Skcipher_alg tfm) w1 = (a, w2) ->
   api (Crypto_skcipher_ivsize tfm) w2 = (sk_iv_size vec, w3) ->
   let req := api (Skcipher_request_alloc tfm) w3 in
   let buf := api (Kmalloc (sk_message_size vec)) (snd req) in
   let release := [Kfree (fst buf); Skcipher_request_free (fst req);
                   Crypto_free_skcipher tfm] in
   fst req = None \/ fst buf = false ->
   fips_test_skcipher api cfg test s
   = (- ENOMEM,
      {| world := world_after api release (snd buf);
         trace := trace s ++
                  [Called (Crypto_alloc_skcipher (alg test));
                   Called (Skcipher_alg tfm);
                   Called (Crypto_skcipher_ivsize tfm);
                   Called (Skcipher_request_alloc tfm);
                   Called (Kmalloc (sk_message_size vec))] ++
                  map Called release |})) /\
  (let vec := aead test in
   aead_iv_size vec <= MAX_IV_SIZE ->
   plaintext_size vec < ciphertext_size vec ->
   api (Crypto_alloc_aead (alg test)) (world s) = (PTR tfm, w1) ->
   api (Aead_alg tfm) w1 = (a, w2) ->
   api (Crypto_aead_ivsize tfm) w2 = (aead_iv_size vec, w3) ->
   let req := api (Aead_request_alloc tfm) w3 in
   let ad := api (Kmalloc (assoc_size vec)) (snd req) in
   let buf := api (Kmalloc (ciphertext_size vec)) (snd ad) in
   let release := [Kfree (fst buf); Kfree (fst ad);
                   Aead_request_free (fst req); Crypto_free_aead tfm] in
   fst req = None \/ fst ad = false \/ fst buf = false ->
   fips_test_aead api cfg test s
   = (- ENOMEM,
      {| world := world_after api release (snd buf);
         trace := trace s ++
                  [Called (Crypto_alloc_aead (alg test));
                   Called (Aead_alg tfm);
                   Called (Crypto_aead_ivsize tfm);
                   Called (Aead_request_alloc tfm);
                   Called (Kmalloc (assoc_size vec));
                   Called (Kmalloc (ciphertext_size vec))] ++
                  map Called release |})) /\
  (let vec := drbg test in
   api (Crypto_alloc_rng (alg test)) (world s) = (PTR tfm, w1) ->
   api (Rng_alg tfm) w1 = (a, w2) ->
   api (Kmalloc (out_size vec)) w2 = (false, w3) ->
   let release := [Kfree false; Crypto_free_rng tfm] in
   fips_test_drbg api cfg test s
   = (- ENOMEM,
      {| world := world_after api release w3;
         trace := trace s ++
                  [Called (Crypto_alloc_rng (alg test));
                   Called (Rng_alg tfm);
                   Called (Kmalloc (out_size vec))] ++
                  map Called release |})).
Proof.
  intros Hsync. repeat split.
  - intros vec Hmax H1 H2 H3 req buf release Hfail.
    subst vec req buf release.
    unfold fips_test_skcipher, fips_check_result. unfold_monad.
    destruct s as [w tr]. cbn [world_after map app] in *. tidy.
    run_path; split_bools; tidy;
      try (destruct Hfail; discriminate);
      run_path; repeat (replay_known; cbn [fst snd]);
      rewrite <- ?app_assoc; reflexivity.
  - intros vec Hmax Hlen H1 H2 H3 req ad buf release Hfail.
    subst vec req ad buf release.
    unfold fips_test_aead, fips_check_result. unfold_monad.
    destruct s as [w tr]. cbn [world_after map app] in *. tidy.
    run_path; split_bools; tidy;
      try (destruct Hfail as [Hfail|[Hfail|Hfail]]; discriminate);
      run_path; repeat (replay_known; cbn [fst snd]);
      rewrite <- ?app_assoc; reflexivity.
  - intros vec H1 H2 H3 release. subst vec release.
    unfold fips_test_drbg, fips_check_result. unfold_monad.
    destruct s as [w tr]. cbn [world_after map app] in *. tidy.
    run_path; repeat (replay_known; cbn [fst snd]);
      rewrite <- ?app_assoc; reflexivity.
Qed.

Lemma allocation_failure_is_enomem_witness :
  fst (fips_test_skcipher (toy_api no_memory_toy) (linux_config false None)
         example_cbc_test start) = - ENOMEM /\
  fst (fips_test_drbg (toy_api no_memory_toy) (linux_config false None)
         example_drbg_test start) = - ENOMEM.
Proof.
  split.
  - rewrite (proj1 (allocation_failure_is_enomem (toy_api no_memory_toy)
                      (linux_config false None) example_cbc_test start 7
                      {| cra_flags := 0; cra_name := "toy";
                         cra_driver_name := "toy-generic" |}
                      1%nat 2%nat 3%nat eq_refl));
      try reflexivity; try discriminate.
    right. reflexivity.
  - rewrite (proj2 (proj2 (allocation_failure_is_enomem (toy_api no_memory_toy)
                      (linux_config false None) example_drbg_test start 7
                      {| cra_flags := 0; cra_name := "toy";
                         cra_driver_name := "toy-generic" |}
                      1%nat 2%nat 3%nat eq_refl)));
      reflexivity.
Defined.
